(** * HyperDex [src/bin/binary.cc]: the bit-encoding search harness

    A shallow embedding of [main] of [binary.cc]: the program that stores
    [numbers] points whose 32 secondary attributes spell the bits of the
    key, searches for each of them again and reports the time taken. *)

From Stdlib Require Import ZArith List String Ascii Lia Bool DecimalString.
From Stdlib.Strings Require Import Byte.
From Stdlib Require DecimalN DecimalPos.
From stdpp Require Import base tactics option list.
From Equations Require Import Equations.
Import ListNotations.

Local Open Scope Z_scope.

(** ** Machine integers

    The C++ integer types that occur in [main], as [Z] with the
    wrap-around of each width written out. *)
Module MachineInt.

Definition to_uint32 (z : Z) : Z := z mod 2 ^ 32.
Definition to_uint64 (z : Z) : Z := z mod 2 ^ 64.

(** Two's complement reading of the low [w] bits. *)
Definition to_signed (w : Z) (z : Z) : Z :=
  (z + 2 ^ (w - 1)) mod 2 ^ w - 2 ^ (w - 1).

Definition to_int32 : Z -> Z := to_signed 32.
Definition to_int64 : Z -> Z := to_signed 64.

Definition is_uint32 (z : Z) : Prop := 0 <= z < 2 ^ 32.

(** [a << i] on [int] operands: the result has type [int]. *)
Definition shl_int (a i : Z) : Z := to_int32 (Z.shiftl a i).

(** [a & b] with [a : uint32_t] and [b : int]: the usual arithmetic
    conversions turn [b] into [unsigned int] first. *)
Definition and_uint32_int (a b : Z) : Z := Z.land a (to_uint32 b).

End MachineInt.
Import MachineInt.

(** ** Buffers *)

Definition buffer : Type := list byte.

#[global] Instance byte_eq_decision : EqDecision byte := Byte.byte_eq_dec.

(** Modelled from the spec: [e::buffer(const char*, size_t)] of libe is not
    part of the sources; a buffer built from a pointer and a length holds
    the first [sz] bytes found at the pointer. *)
Definition buffer_ctor (s : string) (sz : nat) : buffer :=
  firstn sz (list_byte_of_string s).

Definition byte_of_Z (z : Z) : byte :=
  match Byte.of_N (Z.to_N (z mod 256)) with
  | Some b => b
  | None => x00
  end.

(** Modelled from the spec: [key.pack() << num] of libe is not part of the
    sources; the Key is the fixed-width binary packing of the 32-bit
    identifier, four bytes in network byte order. *)
Definition pack_uint32 (num : Z) : buffer :=
  [ byte_of_Z (Z.shiftr num 24); byte_of_Z (Z.shiftr num 16);
    byte_of_Z (Z.shiftr num 8); byte_of_Z num ].

Definition unpack_uint32 (b : buffer) : option Z :=
  match b with
  | [b3; b2; b1; b0] =>
      Some (Z.of_N (Byte.to_N b3) * 2 ^ 24 + Z.of_N (Byte.to_N b2) * 2 ^ 16
            + Z.of_N (Byte.to_N b1) * 2 ^ 8 + Z.of_N (Byte.to_N b0))
  | _ => None
  end.

(** [e::buffer one("one", 3);] and [e::buffer zero("zero", 3);] *)
Definition one : buffer := buffer_ctor "one" 3.
Definition zero : buffer := buffer_ctor "zero" 3.

(** ** The bit encoder (the inner loop of the load phase) *)

(** The test [(num & (1 << i))] of both inner loops. *)
Definition bit_test (num i : Z) : bool :=
  negb (and_uint32_int num (shl_int 1 i) =? 0).

(** [std::vector::push_back]. *)
Definition push_back {A} (v : list A) (x : A) : list A := v ++ [x].

(** [value.back() = x]: assignment to the last element. *)
Definition set_back {A} (v : list A) (x : A) : list A :=
  <[pred (length v) := x]> v.

(** The body of the loop at lines 110-122. *)
Definition value_body (num i : Z) (value : list buffer) : list buffer :=
  let value := push_back value [] in
  if bit_test num i then set_back value one else set_back value zero.

(** [for (size_t i = 0; i < 32; ++i) { ... }], entered with counter [i]. *)
Equations? value_loop (num i : Z) (value : list buffer) : list buffer
  by wf (Z.to_nat (32 - i)) lt :=
  value_loop num i value with Z_lt_dec i 32 => {
    | left _ => value_loop num (i + 1) (value_body num i value);
    | right _ => value }.
Proof. lia. Qed.

(** The Attribute Vector of identifier [num]. *)
Definition attributes (num : Z) : list buffer := value_loop num 0 [].

(** The Record of identifier [num]: Key and Attribute Vector. *)
Definition encode (num : Z) : buffer * list buffer :=
  (pack_uint32 num, attributes num).

(** ** The search term set (the inner loop of the search phase) *)

(** Modelled from the spec: [hyperdex::search] is declared outside the
    sources (it comes with [hyperdex/client.h]); a Search Term Set is a
    vector of constraints, one slot per attribute index, each either unset
    or pinned to a value. *)
Abbreviation search := (list (option buffer)).

(** Modelled from the spec: the constructor [hyperdex::search terms(n)]
    makes [n] slots, none of them set. *)
Definition search_ctor (n : nat) : search := replicate n None.

(** Modelled from the spec: [terms.set(i, v)] pins attribute [i] to [v]. *)
Definition search_set (terms : search) (i : Z) (v : buffer) : search :=
  <[Z.to_nat i := Some v]> terms.

(** The body of the loop at lines 156-166. *)
Definition terms_body (num i : Z) (terms : search) : search :=
  if bit_test num i then search_set terms i one else search_set terms i zero.

Equations? terms_loop (num i : Z) (terms : search) : search
  by wf (Z.to_nat (32 - i)) lt :=
  terms_loop num i terms with Z_lt_dec i 32 => {
    | left _ => terms_loop num (i + 1) (terms_body num i terms);
    | right _ => terms }.
Proof. lia. Qed.

(** The Search Term Set of identifier [num]. *)
Definition search_terms (num : Z) : search :=
  terms_loop num 0 (search_ctor 32).

(** ** Decoding an attribute vector

    The spec's inverse of the encoder: read which sentinel occupies each
    index and reassemble the bits, index 0 being the least significant. *)

Definition buffer_eqb (a b : buffer) : bool := bool_decide (a = b).

Definition decode_attribute (b : buffer) : option bool :=
  if buffer_eqb b one then Some true
  else if buffer_eqb b zero then Some false
  else None.

Fixpoint decode (value : list buffer) : option Z :=
  match value with
  | [] => Some 0
  | b :: rest =>
      match decode_attribute b, decode rest with
      | Some bit, Some hi => Some (Z.b2z bit + 2 * hi)
      | _, _ => None
      end
  end.

(** ** The elapsed time (lines 190-204)

    [timespec] on the LP64 platforms HyperDex builds for: [time_t tv_sec]
    and [long tv_nsec] are both signed 64-bit integers. *)

Record timespec : Type := { tv_sec : Z; tv_nsec : Z }.

(** The guard [(end.tv_nsec < start.tv_nsec) < 0]: the comparison yields a
    [bool], which is promoted to the [int] 0 or 1 and compared with 0. *)
Definition borrow_guard (start end_ : timespec) : bool :=
  Z.b2z (tv_nsec end_ <? tv_nsec start) <? 0.

Definition timespec_diff (start end_ : timespec) : timespec :=
  if borrow_guard start end_ then
    {| tv_sec := to_int64 (to_int64 (tv_sec end_ - tv_sec start) - 1);
       tv_nsec := to_int64 (to_int64 (1000000000 + tv_nsec end_)
                            - tv_nsec start) |}
  else
    {| tv_sec := to_int64 (tv_sec end_ - tv_sec start);
       tv_nsec := to_int64 (tv_nsec end_ - tv_nsec start) |}.

(** [uint64_t nanosecs = diff.tv_sec * 1000000000 + diff.tv_nsec;] the
    right-hand side is computed in [long] and then converted. *)
Definition nanosecs_of (diff : timespec) : Z :=
  to_uint64 (to_int64 (to_int64 (tv_sec diff * 1000000000) + tv_nsec diff)).

Definition elapsed_nanosecs (start end_ : timespec) : Z :=
  nanosecs_of (timespec_diff start end_).

(** A timestamp as a single count of nanoseconds. *)
Definition instant (t : timespec) : Z := tv_sec t * 1000000000 + tv_nsec t.

(** ** Text written to [std::cerr] *)

Definition endl : string := String "010" "".

(** [std::cerr << n] for an unsigned integer: its decimal digits. *)
Definition dec (n : Z) : string := NilZero.string_of_uint (N.to_uint (Z.to_N n)).

Definition hex_digit (n : N) : ascii :=
  match n with
  | 0%N => "0" | 1%N => "1" | 2%N => "2" | 3%N => "3" | 4%N => "4"
  | 5%N => "5" | 6%N => "6" | 7%N => "7" | 8%N => "8" | 9%N => "9"
  | 10%N => "a" | 11%N => "b" | 12%N => "c" | 13%N => "d" | 14%N => "e"
  | _ => "f"
  end%char.

(** Modelled from the spec: [e::buffer::hex()] of libe is not part of the
    sources; the key is shown as two hexadecimal digits for each byte. *)
Fixpoint hex (b : buffer) : string :=
  match b with
  | [] => EmptyString
  | x :: rest =>
      String (hex_digit (Byte.to_N x / 16))
        (String (hex_digit (Byte.to_N x mod 16)) (hex rest))
  end.

(** ** The interface to the store and to the system *)

(** Modelled from the spec: [hyperdex::returncode] is declared outside the
    sources; a write reports one of Success, NotFound, Invalid, Error, or a
    code that [main] does not recognize. *)
Inductive returncode : Type :=
  | SUCCESS | NOTFOUND | INVALID | ERROR | UNRECOGNIZED.

(** The exceptions told apart by the handlers at lines 207-226. *)
Inductive exception : Type :=
  | po6_error (what : string)
  | runtime_error (what : string)
  | bad_alloc (what : string)
  | std_exception (what : string).

(** Modelled from the spec: [hyperdex::client::search_results] is declared
    outside the sources; a Result Cursor is a finite, forward-only sequence
    of matching keys. [valid] tells whether there is a current result,
    [key] is the current result and [next] moves past it. *)
Definition search_results : Type := list buffer.

Definition sr_valid (s : search_results) : bool :=
  match s with [] => false | _ :: _ => true end.

Definition sr_key (s : search_results) : buffer :=
  match s with [] => [] | k :: _ => k end.

Definition sr_next (s : search_results) : search_results := tl s.

(** What [main] does to its surroundings, in the order it does it; a call
    that is answered carries its answer. *)
Inductive event : Type :=
  | EvConnect (answer : exception + unit)
  | EvPut (space : string) (key : buffer) (value : list buffer)
          (answer : exception + returncode)
  | EvSearch (space : string) (terms : search)
             (answer : exception + search_results)
  | EvNext
  | EvSleep (seconds milliseconds : Z)
  | EvClock (answer : timespec)
  | EvCerr (text : string).

#[global] Instance returncode_eq_dec : EqDecision returncode.
Proof. solve_decision. Defined.

(** The store and the clock, as seen from the client: each call answers
    from the current state of the world and leaves a new one. *)
Record environment (W : Type) : Type := {
  env_connect : W -> (exception + unit) * W;
  env_put : string -> buffer -> list buffer -> W -> (exception + returncode) * W;
  env_search : string -> search -> W -> (exception + search_results) * W;
  env_clock : W -> timespec * W
}.
Arguments env_connect {W}.
Arguments env_put {W}.
Arguments env_search {W}.
Arguments env_clock {W}.

(** ** A state and exception monad for [main] *)

Inductive outcome (A : Type) : Type :=
  | Returned (a : A)
  | Thrown (e : exception)
  | OutOfFuel.
Arguments Returned {A}.
Arguments Thrown {A}.
Arguments OutOfFuel {A}.

Record state (W : Type) : Type := { world : W; trace : list event }.
Arguments world {W}.
Arguments trace {W}.
Arguments Build_state {W}.

Definition M (W A : Type) : Type := state W -> outcome A * state W.

#[global] Instance M_ret {W} : MRet (M W) := fun A a s => (Returned a, s).

#[global] Instance M_bind {W} : MBind (M W) := fun A B f m s =>
  match m s with
  | (Returned a, s') => f a s'
  | (Thrown e, s') => (Thrown e, s')
  | (OutOfFuel, s') => (OutOfFuel, s')
  end.

Definition emit {W} (e : event) : M W unit := fun s =>
  (Returned tt, {| world := world s; trace := trace s ++ [e] |}).

(** A call that may throw: the call and its answer are recorded, then the
    answer decides. *)
Definition call {W A} (e : exception + A -> event)
    (f : W -> (exception + A) * W) : M W A :=
  fun s =>
    let '(r, w) := f (world s) in
    let s' := {| world := w; trace := trace s ++ [e r] |} in
    match r with
    | inl x => (Thrown x, s')
    | inr a => (Returned a, s')
    end.

Definition out_of_fuel {W A} : M W A := fun s => (OutOfFuel, s).

Definition cerr {W} (text : string) : M W unit := emit (EvCerr text).

(** The lines written at lines 172, 178 and 185. *)
Definition text_found_nothing (num : Z) : string :=
  ("Number " ++ dec num ++ " found nothing." ++ endl)%string.

Definition text_wrong_key (num : Z) (key found : buffer) : string :=
  ("Number " ++ dec num ++ " returned wrong key: "
   ++ hex key ++ " " ++ hex found ++ endl)%string.

Definition text_more_than_one (num : Z) : string :=
  ("Number " ++ dec num ++ " found more than one result." ++ endl)%string.

Definition try_catch {W A} (m : M W A) (handler : exception -> M W A) : M W A :=
  fun s =>
    match m s with
    | (Thrown e, s') => handler e s'
    | r => r
    end.

Definition EXIT_SUCCESS : Z := 0.
Definition EXIT_FAILURE : Z := 1.

(** ** [main], from the [try] block at line 98 on

    The command line has been parsed: [space] is [argv[3]] and [numbers]
    is the count read from [argv[4]]. *)
Section Main.
Context {W : Type} (env : environment W).
Variable space : string.
Variable numbers : Z.

Definition clock_gettime : M W timespec := fun s =>
  let '(t, w) := env_clock env (world s) in
  (Returned t, {| world := w; trace := trace s ++ [EvClock t] |}).

(** [for (uint32_t num = 0; num < numbers; ++num) { ... }], the shape of
    both outer loops, entered with counter [num]. *)
Fixpoint for_num (body : Z -> M W unit) (fuel : nat) (num : Z) : M W unit :=
  if num <? numbers then
    match fuel with
    | O => out_of_fuel
    | S fuel' => body num;; for_num body fuel' (to_uint32 (num + 1))
    end
  else mret tt.

(** The [switch] at lines 124-140. *)
Definition put_switch (rc : returncode) : M W unit :=
  match rc with
  | SUCCESS => mret tt
  | NOTFOUND => cerr ("Put returned NOTFOUND." ++ endl)
  | INVALID => cerr ("Put returned INVALID." ++ endl)
  | ERROR => cerr ("Put returned ERROR." ++ endl)
  | UNRECOGNIZED => cerr ("Put returned unknown status." ++ endl)
  end%string.

(** The body of the load loop, lines 106-140. *)
Definition load_body (num : Z) : M W unit :=
  let key := pack_uint32 num in
  let value := value_loop num 0 [] in
  rc ← call (EvPut space key value) (env_put env space key value);
  put_switch rc.

(** Lines 104-141. *)
Definition load_loop : nat -> Z -> M W unit := for_num load_body.

(** The checks on the results of one search, lines 170-187. *)
Definition verify (num : Z) (key : buffer) (s : search_results) : M W unit :=
  if negb (sr_valid s) then
    cerr (text_found_nothing num)
  else
    (if negb (buffer_eqb key (sr_key s)) then
       cerr (text_wrong_key num key (sr_key s))
     else mret tt);;
    emit EvNext;;
    let s := sr_next s in
    if sr_valid s then
      cerr (text_more_than_one num)
    else mret tt.

(** The body of the search loop, lines 152-187. *)
Definition search_body (num : Z) : M W unit :=
  let terms := search_ctor 32 in
  let key := pack_uint32 num in
  let terms := terms_loop num 0 terms in
  s ← call (EvSearch space terms) (env_search env space terms);
  verify num key s.

(** Lines 150-188. *)
Definition search_loop : nat -> Z -> M W unit := for_num search_body.

(** Lines 190-205. *)
Definition report (start end_ : timespec) : M W unit :=
  let diff := timespec_diff start end_ in
  let nanosecs := nanosecs_of diff in
  cerr ("test took " ++ dec nanosecs ++ " nanoseconds for "
        ++ dec numbers ++ " searches" ++ endl).

(** The [try] block, lines 100-205. Each loop runs on as much fuel as it
    has iterations to make. *)
Definition main_try : M W unit :=
  call EvConnect (env_connect env);;
  load_loop (Z.to_nat numbers) 0;;
  emit (EvSleep 1 0);;
  cerr ("Starting searches." ++ endl);;
  start ← clock_gettime;
  search_loop (Z.to_nat numbers) 0;;
  end_ ← clock_gettime;
  report start end_.

(** The handlers, lines 207-226. *)
Definition main_catch (e : exception) : M W Z :=
  match e with
  | po6_error what => cerr ("There was a system error:  " ++ what)
  | runtime_error what => cerr ("There was a runtime error:  " ++ what)
  | bad_alloc what => cerr ("There was a memory allocation error:  " ++ what)
  | std_exception what => cerr ("There was a generic error:  " ++ what)
  end;; mret EXIT_FAILURE.

Definition main : M W Z :=
  try_catch (main_try;; mret EXIT_SUCCESS) main_catch.

End Main.

(** ** A store to run [main] against

    A world that is a script: the status of each write still to come and
    the results of each search still to come; the clock reads a counter of
    nanoseconds that every call advances. *)
Record script : Type := {
  put_script : list returncode;
  search_script : list search_results;
  now : Z
}.

Definition script_env : environment script := {|
  env_connect w := (inr tt, w);
  env_put _ _ _ w :=
    (inr (hd SUCCESS (put_script w)),
     {| put_script := tl (put_script w);
        search_script := search_script w; now := now w + 400000000 |});
  env_search _ _ w :=
    (inr (hd [] (search_script w)),
     {| put_script := put_script w;
        search_script := tl (search_script w); now := now w + 400000000 |});
  env_clock w :=
    ({| tv_sec := now w / 1000000000; tv_nsec := now w mod 1000000000 |}, w)
|}.

(** A store that cannot be reached: the connection throws. *)
Definition refusing_env : environment script := {|
  env_connect w := (inl (po6_error "Connection refused"), w);
  env_put := env_put script_env;
  env_search := env_search script_env;
  env_clock := env_clock script_env
|}.

(** The state in which a run against the script starts. *)
Definition script_state (puts : list returncode)
    (results : list search_results) : state script :=
  {| world := {| put_script := puts; search_script := results;
                 now := 10900000000 |};
     trace := [] |}.

(** ** [main] from the command line, and [usage] (lines 45-96, 231-240) *)

(** The result of [e::convert::to_uint16_t] and [e::convert::to_uint32_t]:
    the number, or one of the two exceptions that [main] catches. *)
Inductive conversion : Type :=
  | Converted (z : Z)
  | DomainError
  | OutOfRange.

(** Lines 234-238. *)
Definition usage_text : string :=
  ("Usage:  binary <coordinator ip> <coordinator port> <space name> <numbers>"
   ++ endl
   ++ "This will create <numbers> points whose key is a number [0, <numbers>) and "
   ++ "then perform searches over the bits of the number.  The space should have 32 "
   ++ "secondary dimensions so that all bits of a number may be stored."
   ++ endl)%string.

(** [usage()], lines 231-240. *)
Definition usage {W} : M W Z := cerr usage_text;; mret EXIT_FAILURE.

Section Arguments.
Context {W : Type}.

(** Modelled from the spec: [po6::net::ipaddr], its assignment from a
    string, and the conversions of [e::convert] are not part of the
    sources. An address that is not an IPv4 or IPv6 address is refused
    ([std::invalid_argument], here [None]); a port or count is converted, or
    refused as not an integer ([std::domain_error]) or as too large
    ([std::out_of_range]). [store_at ip port] is the store the client
    reaches at that location. *)
Variable ipaddr : Type.
Variable parse_ipaddr : string -> option ipaddr.
Variable to_uint16_t : string -> conversion.
Variable to_uint32_t : string -> conversion.
Variable store_at : ipaddr -> Z -> environment W.

(** [argv[i]]. *)
Definition arg (argv : list string) (i : nat) : string :=
  nth i argv EmptyString.

(** [main(argc, argv)], lines 45-229; [argc] is the length of [argv]. *)
Definition main_argv (argv : list string) : M W Z :=
  if negb (Z.of_nat (length argv) =? 5) then usage
  else
    let space := arg argv 3 in
    match parse_ipaddr (arg argv 1) with
    | None =>
        cerr ("The IP address must be an IPv4 or IPv6 address." ++ endl);;
        mret EXIT_FAILURE
    | Some ip =>
        match to_uint16_t (arg argv 2) with
        | DomainError =>
            cerr ("The port number must be an integer." ++ endl);;
            mret EXIT_FAILURE
        | OutOfRange =>
            cerr ("The port number must be suitably small." ++ endl);;
            mret EXIT_FAILURE
        | Converted port =>
            match to_uint32_t (arg argv 4) with
            | DomainError =>
                cerr ("The number must be an integer." ++ endl);;
                mret EXIT_FAILURE
            | OutOfRange =>
                cerr ("The number must be suitably small." ++ endl);;
                mret EXIT_FAILURE
            | Converted numbers => main (store_at ip port) space numbers
            end
        end
    end.

End Arguments.

(** ** A store that works

    Every write succeeds, and a search returns the one key whose record has
    the attributes searched for. *)
Definition perfect_env : environment unit := {|
  env_connect w := (inr tt, w);
  env_put _ _ _ w := (inr SUCCESS, w);
  env_search _ terms w :=
    (inr match decode (omap id terms) with
         | Some n => [pack_uint32 n]
         | None => []
         end, w);
  env_clock w := ({| tv_sec := 1700000000; tv_nsec := 0 |}, w)
|}.


(** A store that answers the search for the terms of each identifier below
    [numbers] with the key of that identifier, and nothing else. *)
Definition answers_exactly {W} (env : environment W) (space : string)
    (numbers : Z) : Prop :=
  forall n w, 0 <= n < numbers ->
    exists w', env_search env space (search_terms n) w
               = (inr [pack_uint32 n], w').

(** Parsers to run [main_argv] with: decimal digits only, one address. *)
Definition demo_convert (max : Z) (s : string) : conversion :=
  match NilEmpty.uint_of_string s with
  | Some u =>
      let z := Z.of_N (N.of_uint u) in
      if z <=? max then Converted z else OutOfRange
  | None => DomainError
  end.

Definition demo_ipaddr (s : string) : option string :=
  if String.eqb s "127.0.0.1" then Some s else None.

Definition demo_main (argv : list string) : M script Z :=
  main_argv string demo_ipaddr (demo_convert 65535) (demo_convert 4294967295)
    (fun _ _ => script_env) argv.

(** ** What a run is expected to leave in the trace *)

Definition sentinel (b : bool) : buffer := if b then one else zero.

(** The events of the sequence of calls numbered [num], [num + 1], ...,
    one chunk for each answer in [rs]. *)
Fixpoint log_from {R} (chunk : Z -> R -> list event) (num : Z) (rs : list R)
  : list event :=
  match rs with
  | [] => []
  | r :: rest => chunk num r ++ log_from chunk (num + 1) rest
  end.

(** The line a write's status puts on [std::cerr], if any. *)
Definition put_lines (rc : returncode) : list event :=
  match rc with
  | SUCCESS => []
  | NOTFOUND => [EvCerr ("Put returned NOTFOUND." ++ endl)]
  | INVALID => [EvCerr ("Put returned INVALID." ++ endl)]
  | ERROR => [EvCerr ("Put returned ERROR." ++ endl)]
  | UNRECOGNIZED => [EvCerr ("Put returned unknown status." ++ endl)]
  end%string.

(** One write of identifier [num] that returned status [rc]. *)
Definition put_chunk (space : string) (num : Z) (rc : returncode) : list event :=
  EvPut space (pack_uint32 num) (attributes num) (inr rc) :: put_lines rc.

(** One write of identifier [num] that threw [e]. *)
Definition put_fail (space : string) (num : Z) (e : exception) : list event :=
  [EvPut space (pack_uint32 num) (attributes num) (inl e)].

(** The verification policy for identifier [num] on a result cursor. *)
Definition verify_lines (num : Z) (s : search_results) : list event :=
  match s with
  | [] => [EvCerr (text_found_nothing num)]
  | first :: more =>
      (if decide (first = pack_uint32 num) then []
       else [EvCerr (text_wrong_key num (pack_uint32 num) first)])
      ++ [EvNext]
      ++ match more with
         | [] => []
         | _ :: _ => [EvCerr (text_more_than_one num)]
         end
  end.

Definition search_chunk (space : string) (num : Z) (s : search_results)
  : list event :=
  EvSearch space (search_terms num) (inr s) :: verify_lines num s.

Definition search_fail (space : string) (num : Z) (e : exception) : list event :=
  [EvSearch space (search_terms num) (inl e)].

(** The text on [std::cerr], in order. *)
Definition cerr_text (t : list event) : list string :=
  omap (fun e => match e with EvCerr text => Some text | _ => None end) t.

(** The identifiers whose write returned a status other than SUCCESS. *)
Definition failed_puts (t : list event) : list Z :=
  omap (fun e => match e with
                 | EvPut _ key _ (inr rc) =>
                     if decide (rc = SUCCESS) then None else unpack_uint32 key
                 | _ => None
                 end) t.

(** The records handed to the store, in order. *)
Definition written (t : list event) : list (buffer * list buffer) :=
  omap (fun e => match e with
                 | EvPut _ key value _ => Some (key, value)
                 | _ => None
                 end) t.

(** The term sets searched for, in order. *)
Definition searched (t : list event) : list search :=
  omap (fun e => match e with
                 | EvSearch _ terms _ => Some terms
                 | _ => None
                 end) t.

(** The events that may occur while the load phase runs, and those that
    may occur while the search phase runs. *)
Definition load_phase_event (e : event) : Prop :=
  match e with
  | EvPut _ _ _ _ | EvCerr _ => True
  | _ => False
  end.

Definition search_phase_event (e : event) : Prop :=
  match e with
  | EvSearch _ _ _ | EvNext | EvCerr _ => True
  | _ => False
  end.

(** A loop body that, run on identifier [n], either returns after leaving
    [chunk n r] in the trace for some answer [r], or throws after leaving
    [fail n e]. *)
Definition runs_as {W R} (body : Z -> M W unit) (chunk : Z -> R -> list event)
    (fail : Z -> exception -> list event) : Prop :=
  forall n s,
    (exists r w', body n s
       = (Returned tt, {| world := w'; trace := trace s ++ chunk n r |}))
    \/ (exists e w', body n s
          = (Thrown e, {| world := w'; trace := trace s ++ fail n e |})).

(** * Properties *)

(** Closes a range goal on a literal. *)
Ltac in_range := unfold is_uint32; lia.


(** ** Machine integers *)

Lemma to_uint32_to_int32 z : to_uint32 (to_int32 z) = z mod 2 ^ 32.
Proof.
  unfold to_uint32, to_int32, to_signed.
  rewrite Zminus_mod_idemp_l. f_equal. lia.
Qed.

Lemma to_uint64_to_int64 z : to_uint64 (to_int64 z) = z mod 2 ^ 64.
Proof.
  unfold to_uint64, to_int64, to_signed.
  rewrite Zminus_mod_idemp_l. f_equal. lia.
Qed.

Lemma to_int64_mod z : to_int64 z mod 2 ^ 64 = z mod 2 ^ 64.
Proof. apply to_uint64_to_int64. Qed.

Lemma land_pow2 num i :
  0 <= i -> Z.land num (2 ^ i) = if Z.testbit num i then 2 ^ i else 0.
Proof.
  intros Hi. apply Z.bits_inj'. intros j Hj.
  rewrite Z.land_spec, Z.pow2_bits_eqb by lia.
  destruct (Z.eqb_spec i j) as [->|Hne].
  - destruct (Z.testbit num j); simpl.
    + rewrite Z.pow2_bits_eqb by lia. symmetry. apply Z.eqb_refl.
    + now rewrite Z.bits_0.
  - rewrite andb_false_r. destruct (Z.testbit num i).
    + rewrite Z.pow2_bits_eqb by lia. symmetry. now apply Z.eqb_neq.
    + now rewrite Z.bits_0.
Qed.

Example shl_int_31 : shl_int 1 31 = - 2 ^ 31 /\ bit_test (2 ^ 31) 31 = true.
Proof. split; reflexivity. Qed.

(** The test of the source reads bit [i] of [num], also at [i = 31], where
    [1 << i] is the most negative [int]. *)
Lemma bit_test_testbit num i :
  0 <= i < 32 -> bit_test num i = Z.testbit num i.
Proof.
  intros Hi. unfold bit_test, and_uint32_int, shl_int.
  rewrite to_uint32_to_int32, Z.shiftl_1_l.
  rewrite Z.mod_small by (split; [lia | apply Z.pow_lt_mono_r; lia]).
  rewrite land_pow2 by lia.
  destruct (Z.testbit num i); [|reflexivity].
  apply negb_true_iff, Z.eqb_neq. lia.
Qed.

Lemma shiftr_land_1 num i :
  0 <= i -> (Z.land (Z.shiftr num i) 1 =? 1) = Z.testbit num i.
Proof.
  intros Hi. rewrite Z.testbit_odd.
  change 1 with (Z.ones 1) at 1. rewrite Z.land_ones by lia.
  change (2 ^ 1) with 2. rewrite Zmod_odd.
  now destruct (Z.odd (Z.shiftr num i)).
Qed.

(** ** The bit encoder *)

Example attributes_5 :
  attributes 5 = [one; zero; one] ++ repeat zero 29.
Proof. vm_compute. reflexivity. Qed.

Lemma set_back_push_back {A} (v : list A) (x y : A) :
  set_back (push_back v x) y = v ++ [y].
Proof.
  unfold set_back, push_back. rewrite length_app. simpl.
  replace (pred (length v + 1)) with (length v + 0)%nat by lia.
  now rewrite insert_app_r.
Qed.

Lemma value_body_app num i value :
  value_body num i value = value ++ [sentinel (bit_test num i)].
Proof.
  unfold value_body, sentinel.
  destruct (bit_test num i); apply set_back_push_back.
Qed.

(** The loop, entered at [i] with [value], appends one sentinel for each of
    the indices [i], ..., 31. *)
Lemma value_loop_app num i value :
  0 <= i <= 32 ->
  value_loop num i value
  = value ++ ((fun k => sentinel (bit_test num k)) <$> seqZ i (32 - i)).
Proof.
  funelim (value_loop num i value); intros Hi.
  - rewrite H by lia. rewrite value_body_app, <- app_assoc. f_equal.
    rewrite (seqZ_cons i) by lia. simpl. do 3 f_equal; lia.
  - rewrite seqZ_nil by lia. simpl. now rewrite app_nil_r.
Qed.

Lemma attributes_seqZ num :
  attributes num = (fun k => sentinel (bit_test num k)) <$> seqZ 0 32.
Proof. unfold attributes. now rewrite value_loop_app by lia. Qed.

Lemma attributes_length num : length (attributes num) = 32%nat.
Proof. rewrite attributes_seqZ, length_fmap, length_seqZ. reflexivity. Qed.

Lemma attributes_lookup num (i : nat) :
  (i < 32)%nat ->
  attributes num !! i = Some (sentinel (Z.testbit num (Z.of_nat i))).
Proof.
  intros Hi. rewrite attributes_seqZ, list_lookup_fmap.
  rewrite lookup_seqZ_lt by lia. simpl.
  now rewrite bit_test_testbit by lia.
Qed.

Lemma attributes_elem num v : v ∈ attributes num -> v = one \/ v = zero.
Proof.
  rewrite attributes_seqZ. intros (k & -> & _)%list_elem_of_fmap.
  unfold sentinel. destruct (bit_test num k); auto.
Qed.

(** ** The search term set *)

Lemma terms_loop_take num i (terms : search) :
  0 <= i <= 32 -> length terms = 32%nat ->
  terms_loop num i terms
  = take (Z.to_nat i) terms
    ++ ((fun k => Some (sentinel (bit_test num k))) <$> seqZ i (32 - i)).
Proof.
  funelim (terms_loop num i terms); intros Hi Hlen.
  - rewrite H; [|lia|].
    + replace (Z.to_nat (i + 1)) with (S (Z.to_nat i)) by lia.
      assert (Hb : terms_body num i terms
                   = <[Z.to_nat i := Some (sentinel (bit_test num i))]> terms).
      { unfold terms_body, search_set, sentinel.
        now destruct (bit_test num i). }
      rewrite Hb.
      erewrite take_S_r by (apply list_lookup_insert_eq; lia).
      rewrite take_insert_ge by lia.
      rewrite <- app_assoc. f_equal.
      rewrite (seqZ_cons i) by lia. simpl. do 3 f_equal; lia.
    + unfold terms_body, search_set.
      destruct (bit_test num i); now rewrite length_insert.
  - rewrite seqZ_nil by lia. simpl. rewrite app_nil_r.
    now rewrite take_ge by lia.
Qed.

Lemma search_terms_attributes num :
  search_terms num = Some <$> attributes num.
Proof.
  unfold search_terms.
  rewrite terms_loop_take by (try lia; apply length_replicate).
  rewrite attributes_seqZ, <- list_fmap_compose. reflexivity.
Qed.

(** ** The key *)

Lemma byte_of_Z_to_N z : Z.of_N (Byte.to_N (byte_of_Z z)) = z mod 256.
Proof.
  unfold byte_of_Z.
  assert (Hz : 0 <= z mod 256 < 256) by (apply Z.mod_pos_bound; lia).
  destruct (Byte.of_N (Z.to_N (z mod 256))) as [b|] eqn:Hb.
  - apply Byte.to_of_N in Hb. rewrite Hb. lia.
  - apply Byte.of_N_None_iff in Hb. lia.
Qed.

Lemma unpack_pack num : is_uint32 num -> unpack_uint32 (pack_uint32 num) = Some num.
Proof.
  unfold is_uint32. intros Hn. unfold pack_uint32, unpack_uint32.
  rewrite !byte_of_Z_to_N, !Z.shiftr_div_pow2 by lia. f_equal.
  change (2 ^ 24) with 16777216. change (2 ^ 16) with 65536.
  change (2 ^ 8) with 256. change (2 ^ 32) with 4294967296 in Hn.
  pose proof (Z.div_mod num 256 ltac:(lia)).
  pose proof (Z.div_mod (num / 256) 256 ltac:(lia)).
  pose proof (Z.div_mod (num / 256 / 256) 256 ltac:(lia)).
  assert (H16 : num / 65536 = num / 256 / 256)
    by (rewrite Z.div_div by lia; reflexivity).
  assert (H24 : num / 16777216 = num / 256 / 256 / 256)
    by (rewrite !Z.div_div by lia; reflexivity).
  rewrite H16, H24.
  assert (num / 256 / 256 / 256 < 256).
  { rewrite <- H24. apply Z.div_lt_upper_bound; lia. }
  assert (0 <= num / 256 / 256 / 256).
  { rewrite <- H24. apply Z.div_pos; lia. }
  rewrite (Z.mod_small (num / 256 / 256 / 256)) by lia.
  lia.
Qed.

(** ** Decoding *)

Lemma one_neq_zero : one <> zero.
Proof. discriminate. Qed.

Lemma decode_attribute_sentinel b : decode_attribute (sentinel b) = Some b.
Proof. now destruct b. Qed.

Lemma decode_bits num (k : nat) j :
  0 <= j ->
  decode ((fun i => sentinel (Z.testbit num i)) <$> seqZ j (Z.of_nat k))
  = Some ((num / 2 ^ j) mod 2 ^ Z.of_nat k).
Proof.
  revert j. induction k as [|k IH]; intros j Hj.
  - simpl. now rewrite Z.mod_1_r.
  - rewrite seqZ_cons by lia. cbn [fmap list_fmap decode].
    rewrite decode_attribute_sentinel.
    replace (Z.pred (Z.of_nat (S k))) with (Z.of_nat k) by lia.
    change (list_fmap Z buffer ?f ?l) with (f <$> l).
    rewrite IH by lia. f_equal.
    replace (Z.of_nat (S k)) with (1 + Z.of_nat k) by lia.
    rewrite Z.pow_add_r, Z.pow_1_r by lia.
    rewrite Z.rem_mul_r by lia.
    rewrite Z.testbit_odd, Z.shiftr_div_pow2, Zmod_odd by lia.
    replace (2 ^ Z.succ j) with (2 ^ j * 2) by (rewrite Z.pow_succ_r; lia).
    rewrite <- Z.div_div by lia.
    destruct (Z.odd (num / 2 ^ j)); simpl Z.b2z; lia.
Qed.

Lemma decode_attributes num : is_uint32 num -> decode (attributes num) = Some num.
Proof.
  intros Hn. rewrite attributes_seqZ.
  erewrite list_fmap_ext with (g := fun i => sentinel (Z.testbit num i)).
  - pose proof (decode_bits num 32 0 ltac:(lia)) as Hd.
    change (Z.of_nat 32) with 32 in Hd. rewrite Hd.
    rewrite Z.pow_0_r, Z.div_1_r. f_equal. now apply Z.mod_small.
  - intros i k Hk. apply lookup_seqZ in Hk as [-> ?].
    now rewrite bit_test_testbit by lia.
Qed.

(** Two lists of one length that differ, differ at some index. *)
Lemma differ_at `{EqDecision A} (l1 l2 : list A) :
  length l1 = length l2 -> l1 <> l2 ->
  exists i, (i < length l1)%nat /\ l1 !! i <> l2 !! i.
Proof.
  revert l2. induction l1 as [|x l1 IH]; intros [|y l2] Hlen Hne;
    simpl in *; try congruence.
  destruct (decide (x = y)) as [->|Hxy].
  - destruct (IH l2) as (i & Hi & Hd); [lia|congruence|].
    exists (S i). split; [lia|exact Hd].
  - exists 0%nat. split; [lia|]. simpl. congruence.
Qed.

(** ** The elapsed time *)

Lemma borrow_guard_false start end_ : borrow_guard start end_ = false.
Proof.
  unfold borrow_guard. now destruct (tv_nsec end_ <? tv_nsec start).
Qed.

Lemma timespec_diff_plain start end_ :
  timespec_diff start end_
  = {| tv_sec := to_int64 (tv_sec end_ - tv_sec start);
       tv_nsec := to_int64 (tv_nsec end_ - tv_nsec start) |}.
Proof. unfold timespec_diff. now rewrite borrow_guard_false. Qed.

(** Whatever wraps on the way, the reported count is the difference of the
    two instants modulo [2 ^ 64]. *)
Lemma elapsed_nanosecs_mod start end_ :
  elapsed_nanosecs start end_ = (instant end_ - instant start) mod 2 ^ 64.
Proof.
  unfold elapsed_nanosecs, nanosecs_of. rewrite timespec_diff_plain.
  cbn [tv_sec tv_nsec]. rewrite to_uint64_to_int64.
  rewrite Zplus_mod, !to_int64_mod.
  rewrite <- Zmult_mod_idemp_l, to_int64_mod, Zmult_mod_idemp_l.
  rewrite <- Zplus_mod. f_equal. unfold instant. lia.
Qed.

(** The example of the specification: from (10 s, 500 ns) to (11 s, 200 ns). *)
Example elapsed_nanosecs_borrow :
  elapsed_nanosecs {| tv_sec := 10; tv_nsec := 500 |}
                   {| tv_sec := 11; tv_nsec := 200 |} = 999999700.
Proof. reflexivity. Qed.

(** ** The outer loops *)

Section Loops.
Context {W : Type} (env : environment W).
Variable space : string.
Variable numbers : Z.

(** The loop visits [num], [num + 1], ... in turn, once each, and only an
    exception stops it before [numbers]; the fuel is never what ends it. *)
Lemma for_num_run {R} (body : Z -> M W unit)
    (chunk : Z -> R -> list event) fail :
  runs_as body chunk fail ->
  forall fuel num s,
    0 <= num -> numbers < 2 ^ 32 -> numbers - num <= Z.of_nat fuel ->
    exists rs tail r w',
      for_num numbers body fuel num s
      = (r, {| world := w';
               trace := trace s ++ log_from chunk num rs ++ tail |})
      /\ ((r = Returned tt /\ tail = []
           /\ num + Z.of_nat (length rs) = Z.max num numbers)
          \/ (exists e, r = Thrown e
                /\ tail = fail (num + Z.of_nat (length rs)) e
                /\ num + Z.of_nat (length rs) < numbers)).
Proof.
  intros Hbody. induction fuel as [|fuel IH]; intros num s Hnum Hmax Hfuel.
  - exists [], [], (Returned tt), (world s). simpl.
    destruct (Z.ltb_spec num numbers); [lia|].
    rewrite app_nil_r. destruct s. split; [reflexivity|]. left.
    repeat split. simpl. lia.
  - simpl. destruct (Z.ltb_spec num numbers) as [Hlt|Hge].
    + unfold mbind, M_bind.
      destruct (Hbody num s) as [(r0 & w1 & Hrun)|(e & w1 & Hrun)];
        rewrite Hrun.
      * assert (Hstep : to_uint32 (num + 1) = num + 1)
          by (apply Z.mod_small; lia).
        rewrite Hstep.
        destruct (IH (num + 1)
                    {| world := w1; trace := trace s ++ chunk num r0 |})
          as (rs & tail & r & w' & Hloop & Hcase); [lia..|].
        exists (r0 :: rs), tail, r, w'. rewrite Hloop. simpl.
        split; [now rewrite <- !app_assoc|].
        destruct Hcase as [(-> & -> & Hlen)|(e & -> & -> & Hlen)].
        -- left. repeat split. lia.
        -- right. exists e. repeat split; [f_equal|]; lia.
      * exists [], (fail num e), (Thrown e), w1. simpl. split; [reflexivity|].
        right. exists e. rewrite Z.add_0_r. auto.
    + exists [], [], (Returned tt), (world s). simpl.
      rewrite app_nil_r. destruct s. split; [reflexivity|]. left.
      repeat split. lia.
Qed.

Lemma put_switch_run rc (s : state W) :
  put_switch rc s
  = (Returned tt, {| world := world s; trace := trace s ++ put_lines rc |}).
Proof.
  destruct s, rc; try reflexivity.
  simpl. now rewrite app_nil_r.
Qed.

Lemma load_body_runs :
  runs_as (load_body env space) (put_chunk space) (put_fail space).
Proof.
  intros n s. unfold load_body, mbind, M_bind, call.
  fold (attributes n).
  destruct (env_put env space (pack_uint32 n) (attributes n) (world s))
    as [[e|rc] w1].
  - right. exists e, w1. reflexivity.
  - left. exists rc, w1. rewrite put_switch_run. simpl.
    unfold put_chunk. now rewrite <- app_assoc.
Qed.

Lemma verify_run num res (s : state W) :
  verify num (pack_uint32 num) res s
  = (Returned tt,
     {| world := world s; trace := trace s ++ verify_lines num res |}).
Proof.
  destruct s as [w t]. destruct res as [|first more]; [reflexivity|].
  unfold verify, verify_lines, buffer_eqb. cbn [sr_valid negb sr_key sr_next tl].
  unfold mbind, M_bind, cerr, emit. cbn [world trace].
  destruct (decide (first = pack_uint32 num)) as [->|Hne].
  - rewrite bool_decide_eq_true_2 by reflexivity. cbn.
    destruct more; cbn; rewrite <- ?app_assoc; reflexivity.
  - rewrite bool_decide_eq_false_2 by congruence. cbn.
    destruct more; cbn; rewrite <- ?app_assoc; reflexivity.
Qed.

Lemma search_body_runs :
  runs_as (search_body env space) (search_chunk space) (search_fail space).
Proof.
  intros n s. unfold search_body, mbind, M_bind, call.
  fold (search_terms n).
  destruct (env_search env space (search_terms n) (world s))
    as [[e|res] w1].
  - right. exists e, w1. reflexivity.
  - left. exists res, w1. rewrite verify_run. simpl.
    unfold search_chunk. now rewrite <- app_assoc.
Qed.

End Loops.

(** ** What the logs contain *)

Lemma written_put_lines rc : written (put_lines rc) = [].
Proof. now destruct rc. Qed.

Lemma written_log space num rcs :
  written (log_from (put_chunk space) num rcs)
  = encode <$> seqZ num (Z.of_nat (length rcs)).
Proof.
  revert num. induction rcs as [|rc rcs IH]; intros num; [reflexivity|].
  cbn [log_from length]. rewrite seqZ_cons by lia.
  replace (Z.pred (Z.of_nat (S (length rcs)))) with (Z.of_nat (length rcs))
    by lia.
  unfold written in *. rewrite omap_app. cbn [fmap list_fmap].
  change (list_fmap Z _ ?f ?l) with (f <$> l).
  rewrite <- IH. cbn [put_chunk omap list_omap].
  fold (written (put_lines rc)). now rewrite written_put_lines.
Qed.

Lemma searched_verify_lines num res : searched (verify_lines num res) = [].
Proof.
  destruct res as [|first [|second more]]; [reflexivity|..];
    unfold verify_lines; destruct (decide (first = pack_uint32 num));
    reflexivity.
Qed.

Lemma searched_log space num results :
  searched (log_from (search_chunk space) num results)
  = search_terms <$> seqZ num (Z.of_nat (length results)).
Proof.
  revert num. induction results as [|res results IH]; intros num;
    [reflexivity|].
  cbn [log_from length]. rewrite seqZ_cons by lia.
  replace (Z.pred (Z.of_nat (S (length results))))
    with (Z.of_nat (length results)) by lia.
  unfold searched in *. rewrite omap_app. cbn [fmap list_fmap].
  change (list_fmap Z _ ?f ?l) with (f <$> l).
  rewrite <- IH. cbn [search_chunk omap list_omap].
  fold (searched (verify_lines num res)). now rewrite searched_verify_lines.
Qed.

Lemma load_phase_log space num rcs :
  Forall load_phase_event (log_from (put_chunk space) num rcs).
Proof.
  revert num. induction rcs as [|rc rcs IH]; intros num; [constructor|].
  cbn [log_from]. apply Forall_app. split; [|apply IH].
  unfold put_chunk. constructor; [exact I|]. destruct rc; repeat constructor.
Qed.

Lemma search_phase_log space num results :
  Forall search_phase_event (log_from (search_chunk space) num results).
Proof.
  revert num. induction results as [|res results IH]; intros num;
    [constructor|].
  cbn [log_from]. apply Forall_app. split; [|apply IH].
  unfold search_chunk. constructor; [exact I|].
  destruct res as [|first [|second more]]; unfold verify_lines;
    try destruct (decide (first = pack_uint32 num)); repeat constructor.
Qed.

(** ** Two runs of [main] *)

(** Two records; the first write returns INVALID, the search for 0 finds
    its key, the search for 1 finds the key of 7 and then its own. The two
    readings of the clock are (11 s, 700000000 ns) and (12 s, 500000000 ns). *)
Example main_run_script :
  let run := main script_env "space" 2
               (script_state [INVALID; SUCCESS]
                  [[pack_uint32 0]; [pack_uint32 7; pack_uint32 1]]) in
  run.1 = Returned EXIT_SUCCESS
  /\ cerr_text (trace run.2)
     = [ "Put returned INVALID." ++ endl;
         "Starting searches." ++ endl;
         "Number 1 returned wrong key: 00000001 00000007" ++ endl;
         "Number 1 found more than one result." ++ endl;
         "test took 800000000 nanoseconds for 2 searches" ++ endl ]%string.
Proof. vm_compute. split; reflexivity. Qed.

Example main_run_refused :
  let run := main refusing_env "space" 2 (script_state [] []) in
  run.1 = Returned EXIT_FAILURE
  /\ trace run.2
     = [ EvConnect (inl (po6_error "Connection refused"));
         EvCerr "There was a system error:  Connection refused" ].
Proof. vm_compute. split; reflexivity. Qed.

(** ** The number in a line of the verifier *)

(** The digits of a number end where the first space stands. *)
Lemma digits_then_space d1 : forall d2 rest1 rest2,
  (NilEmpty.string_of_uint d1 ++ String " " rest1)%string
  = (NilEmpty.string_of_uint d2 ++ String " " rest2)%string ->
  d1 = d2.
Proof.
  induction d1 as [|d1 IH|d1 IH|d1 IH|d1 IH|d1 IH|d1 IH|d1 IH|d1 IH|d1 IH
                   |d1 IH];
    intros [|d2|d2|d2|d2|d2|d2|d2|d2|d2|d2] rest1 rest2 H;
    simpl in H; try discriminate H; try reflexivity;
    f_equal; injection H as H; now apply (IH d2 rest1 rest2).
Qed.

Lemma to_uint_not_Nil n : N.to_uint n <> Decimal.Nil.
Proof.
  destruct n as [|p]; [discriminate|].
  apply DecimalPos.Unsigned.to_uint_nonnil.
Qed.

Lemma dec_NilEmpty n :
  dec n = NilEmpty.string_of_uint (N.to_uint (Z.to_N n)).
Proof.
  unfold dec, NilZero.string_of_uint.
  pose proof (to_uint_not_Nil (Z.to_N n)) as Hn.
  now destruct (N.to_uint (Z.to_N n)).
Qed.

(** A line that starts with "Number ", the number and a space tells the
    number. *)
Lemma number_line_inj n1 n2 rest1 rest2 :
  0 <= n1 -> 0 <= n2 ->
  ("Number " ++ dec n1 ++ String " " rest1)%string
  = ("Number " ++ dec n2 ++ String " " rest2)%string ->
  n1 = n2.
Proof.
  intros H1 H2 H. rewrite !dec_NilEmpty in H. simpl in H.
  injection H as H. apply digits_then_space in H.
  apply DecimalN.Unsigned.to_uint_inj in H. lia.
Qed.

(** * The claims *)

(** C1: the claim says that the borrow branch is taken exactly when
    [end.tv_nsec < start.tv_nsec]. On the spec's own example, start =
    (10 s, 500 ns) and end = (11 s, 200 ns), the sub-second component of the
    end is the smaller one, yet the guard of the source is false, the branch
    without borrow is taken, and the difference is left as 1 s and -300 ns. *)
Theorem C1_borrow_branch_not_taken :
  let start := {| tv_sec := 10; tv_nsec := 500 |} in
  let end_ := {| tv_sec := 11; tv_nsec := 200 |} in
  tv_nsec end_ < tv_nsec start
  /\ borrow_guard start end_ = false
  /\ timespec_diff start end_ = {| tv_sec := 1; tv_nsec := -300 |}.
Proof. cbv zeta. split; [simpl; lia|]. split; reflexivity. Qed.

(** C2: for every uint32 [n] and every index [i] in [0,32), attribute [i]
    of the record is ONE when [(n >> i) & 1] is 1 and ZERO otherwise; the
    key is the packing of [n], four bytes that unpack to [n]. The encoder is
    a total function: it yields a record for every input. *)
Theorem C2_encode_bits (n : Z) :
  is_uint32 n ->
  (forall i : nat, (i < 32)%nat ->
     (encode n).2 !! i
     = Some (if Z.land (Z.shiftr n (Z.of_nat i)) 1 =? 1 then one else zero))
  /\ (encode n).1 = pack_uint32 n
  /\ length (encode n).1 = 4%nat
  /\ unpack_uint32 (encode n).1 = Some n.
Proof.
  intros Hn. split; [|split; [reflexivity|split; [reflexivity|]]].
  - intros i Hi. cbn [encode snd].
    rewrite attributes_lookup, shiftr_land_1 by lia. reflexivity.
  - now apply unpack_pack.
Qed.

Lemma C2_encode_bits_witness :
  is_uint32 5 /\ (2 < 32)%nat
  /\ (encode 5).2 !! 2%nat
     = Some (if Z.land (Z.shiftr 5 (Z.of_nat 2)) 1 =? 1 then one else zero)
  /\ unpack_uint32 (encode 5).1 = Some 5.
Proof.
  assert (H5 : is_uint32 5) by in_range.
  split; [exact H5|]. split; [lia|]. split.
  - apply (proj1 (C2_encode_bits 5 H5)). lia.
  - apply (C2_encode_bits 5 H5).
Defined.

(** C3: for every [n] in [0, 2^32), decoding the attribute vector of [n]
    gives back [n]; and the attribute vectors of two different identifiers
    of that range differ at some index. *)
Theorem C3_round_trip :
  (forall n, is_uint32 n -> decode (attributes n) = Some n)
  /\ (forall n1 n2, is_uint32 n1 -> is_uint32 n2 -> n1 <> n2 ->
      exists i : nat,
        (i < 32)%nat /\ attributes n1 !! i <> attributes n2 !! i).
Proof.
  split; [exact decode_attributes|].
  intros n1 n2 H1 H2 Hne.
  destruct (differ_at (attributes n1) (attributes n2)) as (i & Hi & Hd).
  - now rewrite !attributes_length.
  - intros Heq. apply Hne.
    pose proof (decode_attributes n1 H1) as D1.
    pose proof (decode_attributes n2 H2) as D2.
    congruence.
  - exists i. rewrite attributes_length in Hi. auto.
Qed.

Lemma C3_round_trip_witness :
  is_uint32 5 /\ is_uint32 6 /\ 5 <> 6
  /\ decode (attributes 5) = Some 5
  /\ exists i : nat, (i < 32)%nat /\ attributes 5 !! i <> attributes 6 !! i.
Proof.
  assert (H5 : is_uint32 5) by in_range.
  assert (H6 : is_uint32 6) by in_range.
  assert (Hne : 5 <> 6) by lia.
  split; [exact H5|]. split; [exact H6|]. split; [exact Hne|]. split.
  - exact (proj1 C3_round_trip 5 H5).
  - exact (proj2 C3_round_trip 5 6 H5 H6 Hne).
Defined.

(** C4: for every [n], the Search Term Set built in the search phase has a
    term for each of the 32 indices, and the term at index [i] pins the
    attribute to the very sentinel that the Attribute Vector of [n] holds
    at [i]. *)
Theorem C4_terms_match_attributes (n : Z) :
  search_terms n = Some <$> attributes n
  /\ length (search_terms n) = 32%nat
  /\ forall i : nat, (i < 32)%nat ->
       exists v, (v = one \/ v = zero)
                 /\ attributes n !! i = Some v
                 /\ search_terms n !! i = Some (Some v).
Proof.
  split; [apply search_terms_attributes|]. split.
  - now rewrite search_terms_attributes, length_fmap, attributes_length.
  - intros i Hi. exists (sentinel (Z.testbit n (Z.of_nat i))).
    split; [unfold sentinel; destruct (Z.testbit n (Z.of_nat i)); auto|].
    rewrite search_terms_attributes, list_lookup_fmap.
    now rewrite attributes_lookup by lia.
Qed.

Lemma C4_terms_match_attributes_witness :
  (0 < 32)%nat
  /\ exists v, (v = one \/ v = zero)
               /\ attributes 5 !! 0%nat = Some v
               /\ search_terms 5 !! 0%nat = Some (Some v).
Proof.
  assert (H : (0 < 32)%nat) by lia.
  split; [exact H|].
  exact (proj2 (proj2 (C4_terms_match_attributes 5)) 0%nat H).
Defined.

(** C7: for every [n] the Attribute Vector has exactly 32 entries, and an
    iteration of the encoding loop appends exactly one entry. *)
Theorem C7_attribute_vector_length (num : Z) :
  length (attributes num) = 32%nat
  /\ forall i value, length (value_body num i value) = S (length value).
Proof.
  split; [apply attributes_length|].
  intros i value. rewrite value_body_app, length_app. simpl. lia.
Qed.

(** C9: the guard of the borrow branch is false for every pair of
    timestamps, so the difference is always taken component by component,
    and the reported value is the difference of the two instants modulo
    [2 ^ 64]; when the end is not earlier than the start and the elapsed
    nanoseconds fit the 64-bit result, the reported value is the elapsed
    nanoseconds, and it is not negative. *)
Theorem C9_signed_sum_absorbs_borrow (start end_ : timespec) :
  borrow_guard start end_ = false
  /\ timespec_diff start end_
     = {| tv_sec := to_int64 (tv_sec end_ - tv_sec start);
          tv_nsec := to_int64 (tv_nsec end_ - tv_nsec start) |}
  /\ nanosecs_of (timespec_diff start end_)
     = (instant end_ - instant start) mod 2 ^ 64
  /\ (instant start <= instant end_ ->
      instant end_ - instant start < 2 ^ 64 ->
      nanosecs_of (timespec_diff start end_) = instant end_ - instant start
      /\ 0 <= nanosecs_of (timespec_diff start end_)).
Proof.
  split; [apply borrow_guard_false|]. split; [apply timespec_diff_plain|].
  fold (elapsed_nanosecs start end_). rewrite elapsed_nanosecs_mod.
  split; [reflexivity|].
  intros Hle Hlt. rewrite Z.mod_small by lia. lia.
Qed.

Lemma C9_signed_sum_absorbs_borrow_witness :
  let start := {| tv_sec := 10; tv_nsec := 500 |} in
  let end_ := {| tv_sec := 11; tv_nsec := 200 |} in
  instant start <= instant end_
  /\ instant end_ - instant start < 2 ^ 64
  /\ nanosecs_of (timespec_diff start end_) = 999999700
  /\ 0 <= nanosecs_of (timespec_diff start end_).
Proof.
  cbv zeta.
  assert (H1 : instant {| tv_sec := 10; tv_nsec := 500 |}
               <= instant {| tv_sec := 11; tv_nsec := 200 |})
    by (unfold instant; simpl; lia).
  assert (H2 : instant {| tv_sec := 11; tv_nsec := 200 |}
               - instant {| tv_sec := 10; tv_nsec := 500 |} < 2 ^ 64)
    by (unfold instant; simpl; lia).
  split; [exact H1|]. split; [exact H2|].
  exact (proj2 (proj2 (proj2 (C9_signed_sum_absorbs_borrow _ _))) H1 H2).
Defined.

(** C10: both sentinels are three bytes long, ONE being "one" and ZERO the
    first three bytes "zer" of "zero"; they are distinct, and every
    attribute written and every term searched is one of the two. *)
Theorem C10_sentinels :
  one = list_byte_of_string "one"
  /\ zero = list_byte_of_string "zer"
  /\ length one = 3%nat /\ length zero = 3%nat
  /\ one <> zero
  /\ (forall num, Forall (fun v => v = one \/ v = zero) (attributes num))
  /\ (forall num,
        Forall (fun t => t = Some one \/ t = Some zero) (search_terms num)).
Proof.
  repeat (split; [reflexivity || exact one_neq_zero|]).
  split; intros num.
  - apply Forall_forall. intros v Hv. now apply (attributes_elem num).
  - rewrite search_terms_attributes. apply Forall_fmap, Forall_forall.
    intros v Hv. simpl. destruct (attributes_elem num v Hv) as [->| ->]; auto.
Qed.

(** C5: on an empty cursor the verifier writes "Number n found nothing.";
    otherwise it writes "Number n returned wrong key: " with the expected
    key and the key found when the first result is not the key of [n],
    advances the cursor once, and writes "Number n found more than one
    result." when a second result is there; each of these lines tells [n].
    The loop searches for each identifier of [0, N) once, in order, whatever
    the earlier searches found; only an exception thrown by a search ends it
    early. *)
Theorem C5_search_verifier {W} (env : environment W) (space : string)
    (numbers : Z) (s : state W) :
  is_uint32 numbers ->
  (forall n (st : state W),
     trace (verify n (pack_uint32 n) [] st).2
     = trace st
       ++ [EvCerr ("Number " ++ dec n ++ " found nothing." ++ endl)%string])
  /\ (forall n first more (st : state W),
        trace (verify n (pack_uint32 n) (first :: more) st).2
        = trace st
          ++ (if decide (first = pack_uint32 n) then []
              else [EvCerr ("Number " ++ dec n ++ " returned wrong key: "
                            ++ hex (pack_uint32 n) ++ " " ++ hex first
                            ++ endl)%string])
          ++ [EvNext]
          ++ (if decide (more = []) then []
              else [EvCerr ("Number " ++ dec n
                            ++ " found more than one result."
                            ++ endl)%string]))
  /\ (exists results tail r w',
        search_loop env space numbers (Z.to_nat numbers) 0 s
        = (r, {| world := w';
                 trace := trace s ++ log_from (search_chunk space) 0 results
                          ++ tail |})
        /\ searched (log_from (search_chunk space) 0 results)
           = search_terms <$> seqZ 0 (Z.of_nat (length results))
        /\ ((r = Returned tt /\ tail = []
             /\ Z.of_nat (length results) = numbers)
            \/ (exists e, r = Thrown e
                  /\ tail = search_fail space (Z.of_nat (length results)) e
                  /\ Z.of_nat (length results) < numbers)))
  /\ (forall n res (st : state W),
        (verify n (pack_uint32 n) res st).1 = Returned tt
        /\ world (verify n (pack_uint32 n) res st).2 = world st
        /\ search_chunk space n res
           = EvSearch space (search_terms n) (inr res)
             :: drop (length (trace st))
                  (trace (verify n (pack_uint32 n) res st).2))
  /\ (forall n1 n2, 0 <= n1 -> 0 <= n2 ->
        ("Number " ++ dec n1 ++ " found nothing." ++ endl)%string
        = ("Number " ++ dec n2 ++ " found nothing." ++ endl)%string ->
        n1 = n2)
  /\ (forall n1 n2 key1 key2 found1 found2, 0 <= n1 -> 0 <= n2 ->
        ("Number " ++ dec n1 ++ " returned wrong key: "
         ++ hex key1 ++ " " ++ hex found1 ++ endl)%string
        = ("Number " ++ dec n2 ++ " returned wrong key: "
           ++ hex key2 ++ " " ++ hex found2 ++ endl)%string ->
        n1 = n2)
  /\ (forall n1 n2, 0 <= n1 -> 0 <= n2 ->
        ("Number " ++ dec n1 ++ " found more than one result."
         ++ endl)%string
        = ("Number " ++ dec n2 ++ " found more than one result."
           ++ endl)%string ->
        n1 = n2).
Proof.
  intros [Hlo Hhi]. repeat apply conj.
  - intros n st. now rewrite verify_run.
  - intros n first more st. rewrite verify_run. cbn [snd trace].
    unfold verify_lines. now destruct more.
  - destruct (for_num_run numbers _ _ _ (search_body_runs env space)
                (Z.to_nat numbers) 0 s)
      as (results & tail & r & w' & Hrun & Hcase); [lia..|].
    exists results, tail, r, w'. split; [exact Hrun|].
    split; [apply searched_log|].
    rewrite !Z.add_0_l in Hcase.
    destruct Hcase as [(-> & -> & Hlen)|(e & -> & -> & Hlen)].
    + left. repeat split. lia.
    + right. exists e. auto.
  - intros n res st. rewrite verify_run. cbn [fst snd trace world].
    rewrite drop_app_length. repeat split.
  - intros n1 n2 H1 H2. apply (number_line_inj n1 n2 _ _ H1 H2).
  - intros n1 n2 key1 key2 found1 found2 H1 H2.
    apply (number_line_inj n1 n2 _ _ H1 H2).
  - intros n1 n2 H1 H2. apply (number_line_inj n1 n2 _ _ H1 H2).
Qed.

(** C6, as the code has it: the load loop writes the record of each
    identifier of [0, N) once, in order, whatever status the earlier writes
    returned; only an exception thrown by a write ends it early. SUCCESS
    leaves nothing on [std::cerr]; every other status leaves one line, which
    tells the statuses apart and is the same for every [n]. *)
Theorem C6_load_driver {W} (env : environment W) (space : string)
    (numbers : Z) (s : state W) :
  is_uint32 numbers ->
  (exists rcs tail r w',
     load_loop env space numbers (Z.to_nat numbers) 0 s
     = (r, {| world := w';
              trace := trace s ++ log_from (put_chunk space) 0 rcs ++ tail |})
     /\ written (log_from (put_chunk space) 0 rcs)
        = encode <$> seqZ 0 (Z.of_nat (length rcs))
     /\ ((r = Returned tt /\ tail = [] /\ Z.of_nat (length rcs) = numbers)
         \/ (exists e, r = Thrown e
               /\ tail = put_fail space (Z.of_nat (length rcs)) e
               /\ Z.of_nat (length rcs) < numbers)))
  /\ put_lines SUCCESS = []
  /\ (forall rc, rc <> SUCCESS -> exists text, put_lines rc = [EvCerr text])
  /\ (forall rc1 rc2, put_lines rc1 = put_lines rc2 -> rc1 = rc2)
  /\ (forall n m rc,
        cerr_text (put_chunk space n rc) = cerr_text (put_chunk space m rc)).
Proof.
  intros [Hlo Hhi]. split; [|split; [reflexivity|split; [|split]]].
  - destruct (for_num_run numbers _ _ _ (load_body_runs env space)
                (Z.to_nat numbers) 0 s)
      as (rcs & tail & r & w' & Hrun & Hcase); [lia..|].
    exists rcs, tail, r, w'. split; [exact Hrun|].
    split; [apply written_log|].
    rewrite !Z.add_0_l in Hcase.
    destruct Hcase as [(-> & -> & Hlen)|(e & -> & -> & Hlen)].
    + left. repeat split. lia.
    + right. exists e. auto.
  - intros [] Hrc; try congruence; eexists; reflexivity.
  - intros [] []; simpl; intros H; try reflexivity; discriminate H.
  - intros n m []; reflexivity.
Qed.

Lemma C6_load_driver_witness :
  is_uint32 2
  /\ exists rcs tail r w',
       load_loop script_env "space" 2 (Z.to_nat 2) 0
         (script_state [INVALID; SUCCESS] [])
       = (r, {| world := w';
                trace := [] ++ log_from (put_chunk "space") 0 rcs ++ tail |})
       /\ written (log_from (put_chunk "space") 0 rcs)
          = encode <$> seqZ 0 (Z.of_nat (length rcs))
       /\ ((r = Returned tt /\ tail = [] /\ Z.of_nat (length rcs) = 2)
           \/ (exists e, r = Thrown e
                 /\ tail = put_fail "space" (Z.of_nat (length rcs)) e
                 /\ Z.of_nat (length rcs) < 2)).
Proof.
  assert (H2 : is_uint32 2) by in_range.
  split; [exact H2|].
  exact (proj1 (C6_load_driver script_env "space" 2
                  (script_state [INVALID; SUCCESS] []) H2)).
Defined.

(** C6, as the claim states it, fails: the line logged for a status other
    than SUCCESS does not tell for which [n] it was. Two loads of two
    records, the first with INVALID returned for identifier 0 and the second
    with INVALID returned for identifier 1, leave the same text on
    [std::cerr]. *)
Lemma C6_log_omits_identifier :
  let run rcs :=
    trace (load_loop script_env "space" 2 (Z.to_nat 2) 0
             (script_state rcs [])).2 in
  failed_puts (run [INVALID; SUCCESS]) = [0]
  /\ failed_puts (run [SUCCESS; INVALID]) = [1]
  /\ cerr_text (run [INVALID; SUCCESS]) = cerr_text (run [SUCCESS; INVALID])
  /\ cerr_text (run [INVALID; SUCCESS])
     = [("Put returned INVALID." ++ endl)%string].
Proof. vm_compute. repeat split. Qed.

Lemma C5_search_verifier_witness :
  is_uint32 3
  /\ exists results tail r w',
       search_loop script_env "space" 3 (Z.to_nat 3) 0
         (script_state []
            [[pack_uint32 0]; []; [pack_uint32 7; pack_uint32 2]])
       = (r, {| world := w';
                trace := [] ++ log_from (search_chunk "space") 0 results
                         ++ tail |})
       /\ searched (log_from (search_chunk "space") 0 results)
          = search_terms <$> seqZ 0 (Z.of_nat (length results))
       /\ ((r = Returned tt /\ tail = []
            /\ Z.of_nat (length results) = 3)
           \/ (exists e, r = Thrown e
                 /\ tail = search_fail "space" (Z.of_nat (length results)) e
                 /\ Z.of_nat (length results) < 3)).
Proof.
  assert (H3 : is_uint32 3) by in_range.
  split; [exact H3|].
  exact (proj1 (proj2 (proj2 (C5_search_verifier script_env "space" 3
                                (script_state [] [[pack_uint32 0]; [];
                                                  [pack_uint32 7;
                                                   pack_uint32 2]])
                                H3)))).
Defined.

(** C8: the trace of a run is the connection, then the load phase, which
    holds writes and their log lines only, then the pause [sleep_ms(1, 0)],
    the line "Starting searches." and the first reading of the clock, then
    the search phase, which holds searches, cursor advances and their log
    lines only, then the second reading of the clock and the report. When
    the pause is reached, all [N] writes have been made; a run cut short by
    an exception is an initial part of this sequence. *)
Theorem C8_sequential_phases {W} (env : environment W) (space : string)
    (numbers : Z) (s : state W) :
  is_uint32 numbers ->
  exists r w' c load rest,
    main_try env space numbers s
    = (r, {| world := w'; trace := trace s ++ EvConnect c :: load ++ rest |})
    /\ Forall load_phase_event load
    /\ ((exists e, r = Thrown e /\ rest = [])
        \/ (exists rcs start srch fin,
              load = log_from (put_chunk space) 0 rcs
              /\ Z.of_nat (length rcs) = numbers
              /\ rest = EvSleep 1 0
                        :: EvCerr ("Starting searches." ++ endl)%string
                        :: EvClock start :: srch ++ fin
              /\ Forall search_phase_event srch
              /\ ((exists e, r = Thrown e /\ fin = [])
                  \/ (exists results end_,
                        r = Returned tt
                        /\ srch = log_from (search_chunk space) 0 results
                        /\ Z.of_nat (length results) = numbers
                        /\ fin = [EvClock end_;
                                  EvCerr ("test took "
                                          ++ dec (nanosecs_of
                                                    (timespec_diff start end_))
                                          ++ " nanoseconds for "
                                          ++ dec numbers ++ " searches"
                                          ++ endl)%string])))).
Proof.
  intros [Hlo Hhi]. unfold main_try.
  unfold mbind at 1, M_bind at 1, call at 1.
  destruct (env_connect env (world s)) as [[e|[]] w0].
  { exists (Thrown e), w0, (inl e), [], []. split; [reflexivity|].
    split; [constructor|]. left. eauto. }
  set (s0 := {| world := w0; trace := trace s ++ [EvConnect (inr ())] |}).
  unfold mbind at 1, M_bind at 1.
  destruct (for_num_run numbers _ _ _ (load_body_runs env space)
              (Z.to_nat numbers) 0 s0)
    as (rcs & tail & r1 & w1 & Hload & Hcase1); [lia..|].
  unfold load_loop. rewrite Hload. rewrite !Z.add_0_l in Hcase1.
  destruct Hcase1 as [(-> & -> & Hlen1)|(e & -> & -> & Hlen1)].
  2:{ exists (Thrown e), w1, (inr ()), 
        (log_from (put_chunk space) 0 rcs
         ++ put_fail space (Z.of_nat (length rcs)) e), [].
      subst s0. cbn [trace]. split.
      - now rewrite <- !app_assoc, app_nil_r.
      - split; [|left; eauto].
        apply Forall_app. split; [apply load_phase_log|].
        repeat constructor. }
  unfold mbind at 1, M_bind at 1, emit at 1.
  unfold mbind at 1, M_bind at 1, cerr at 1, emit at 1.
  unfold mbind at 1, M_bind at 1, clock_gettime at 1. cbn [world trace].
  destruct (env_clock env w1) as [start w2].
  unfold mbind at 1, M_bind at 1.
  match goal with
  | |- context [search_loop _ _ _ _ _ ?st] => set (s2 := st)
  end.
  destruct (for_num_run numbers _ _ _ (search_body_runs env space)
              (Z.to_nat numbers) 0 s2)
    as (results & tail & r2 & w3 & Hsearch & Hcase2); [lia..|].
  unfold search_loop. rewrite Hsearch. rewrite !Z.add_0_l in Hcase2.
  destruct Hcase2 as [(-> & -> & Hlen2)|(e & -> & -> & Hlen2)].
  - unfold mbind at 1, M_bind at 1, clock_gettime at 1. cbn [world trace].
    destruct (env_clock env w3) as [end_ w4].
    unfold report, cerr, emit. cbn [world trace].
    exists (Returned tt), w4, (inr ()), (log_from (put_chunk space) 0 rcs),
      (EvSleep 1 0 :: EvCerr ("Starting searches." ++ endl)%string
       :: EvClock start :: log_from (search_chunk space) 0 results
       ++ [EvClock end_;
           EvCerr ("test took "
                   ++ dec (nanosecs_of (timespec_diff start end_))
                   ++ " nanoseconds for " ++ dec numbers ++ " searches"
                   ++ endl)%string]).
    split.
    + f_equal. f_equal. subst s2 s0. cbn [trace].
      rewrite !app_nil_r, <- !app_assoc. cbn [app]. reflexivity.
    + split; [apply load_phase_log|]. right.
      exists rcs, start, (log_from (search_chunk space) 0 results),
        [EvClock end_;
         EvCerr ("test took " ++ dec (nanosecs_of (timespec_diff start end_))
                 ++ " nanoseconds for " ++ dec numbers ++ " searches"
                 ++ endl)%string].
      split; [reflexivity|]. split; [lia|]. split; [reflexivity|].
      split; [apply search_phase_log|]. right.
      exists results, end_. repeat split. lia.
  - exists (Thrown e), w3, (inr ()), (log_from (put_chunk space) 0 rcs),
      (EvSleep 1 0 :: EvCerr ("Starting searches." ++ endl)%string
       :: EvClock start
       :: (log_from (search_chunk space) 0 results
           ++ search_fail space (Z.of_nat (length results)) e) ++ []).
    split.
    + f_equal. f_equal. subst s2 s0. cbn [trace].
      rewrite !app_nil_r, <- !app_assoc. cbn [app]. reflexivity.
    + split; [apply load_phase_log|]. right.
      exists rcs, start,
        (log_from (search_chunk space) 0 results
         ++ search_fail space (Z.of_nat (length results)) e), [].
      split; [reflexivity|]. split; [lia|].
      split; [reflexivity|].
      split; [|left; eauto].
      apply Forall_app. split; [apply search_phase_log|].
      repeat constructor.
Qed.

Lemma C8_sequential_phases_witness :
  is_uint32 2
  /\ exists r w' c load rest,
       main_try script_env "space" 2
         (script_state [INVALID; SUCCESS]
            [[pack_uint32 0]; [pack_uint32 7; pack_uint32 1]])
       = (r, {| world := w'; trace := [] ++ EvConnect c :: load ++ rest |})
       /\ Forall load_phase_event load
       /\ ((exists e, r = Thrown e /\ rest = [])
           \/ (exists rcs start srch fin,
                 load = log_from (put_chunk "space") 0 rcs
                 /\ Z.of_nat (length rcs) = 2
                 /\ rest = EvSleep 1 0
                           :: EvCerr ("Starting searches." ++ endl)%string
                           :: EvClock start :: srch ++ fin
                 /\ Forall search_phase_event srch
                 /\ ((exists e, r = Thrown e /\ fin = [])
                     \/ (exists results end_,
                           r = Returned tt
                           /\ srch = log_from (search_chunk "space") 0 results
                           /\ Z.of_nat (length results) = 2
                           /\ fin = [EvClock end_;
                                     EvCerr ("test took "
                                             ++ dec (nanosecs_of
                                                       (timespec_diff start
                                                          end_))
                                             ++ " nanoseconds for "
                                             ++ dec 2 ++ " searches"
                                             ++ endl)%string])))).
Proof.
  assert (H2 : is_uint32 2) by in_range.
  split; [exact H2|].
  exact (C8_sequential_phases script_env "space" 2
           (script_state [INVALID; SUCCESS]
              [[pack_uint32 0]; [pack_uint32 7; pack_uint32 1]]) H2).
Defined.

(** * Further properties of the code *)

(** ** The encoder *)

Lemma sentinel_inj b1 b2 : sentinel b1 = sentinel b2 -> b1 = b2.
Proof. destruct b1, b2; simpl; intros H; try reflexivity; discriminate H. Qed.

(** X1: the test [num & (1 << i)] of lines 114 and 158 is true exactly when
    bit [i] of [num] is set, for every index of [0, 32): at 31, where
    [1 << i] is the most negative [int], the conversion to unsigned restores
    the bit. *)
Theorem X1_bit_test_reads_bit (num i : Z) :
  0 <= i < 32 ->
  shl_int 1 i = (if i =? 31 then - 2 ^ 31 else 2 ^ i)
  /\ bit_test num i = Z.testbit num i.
Proof.
  intros Hi. split; [|now apply bit_test_testbit].
  unfold shl_int, to_int32, to_signed. rewrite Z.shiftl_1_l.
  assert (H31 : 2 ^ i <= 2 ^ 31) by (apply Z.pow_le_mono_r; lia).
  assert (Hpos : 0 < 2 ^ i) by (apply Z.pow_pos_nonneg; lia).
  change (2 ^ (32 - 1)) with (2 ^ 31).
  replace (2 ^ 32) with (2 * 2 ^ 31) by reflexivity.
  destruct (Z.eqb_spec i 31) as [->|Hne].
  - replace (2 ^ 31 + 2 ^ 31) with (0 + 1 * (2 * 2 ^ 31)) by lia.
    rewrite Z_mod_plus_full. reflexivity.
  - assert (2 ^ i < 2 ^ 31) by (apply Z.pow_lt_mono_r; lia).
    rewrite Z.mod_small by lia. lia.
Qed.

Lemma X1_bit_test_reads_bit_witness :
  0 <= 31 < 32
  /\ shl_int 1 31 = - 2 ^ 31
  /\ bit_test 4294967295 31 = Z.testbit 4294967295 31.
Proof.
  assert (H : 0 <= 31 < 32) by lia.
  split; [exact H|]. exact (X1_bit_test_reads_bit 4294967295 31 H).
Defined.

(** X2: two identifiers have the same attribute at index [i] exactly when
    they have the same bit [i]; so records differ in the attributes of the
    bits in which the identifiers differ, and in no others. *)
Theorem X2_attribute_agrees_iff_bit_agrees (n1 n2 : Z) (i : nat) :
  (i < 32)%nat ->
  attributes n1 !! i = attributes n2 !! i
  <-> Z.testbit n1 (Z.of_nat i) = Z.testbit n2 (Z.of_nat i).
Proof.
  intros Hi. rewrite !attributes_lookup by lia. split.
  - intros [= H]. now apply sentinel_inj.
  - now intros ->.
Qed.

Lemma X2_attribute_agrees_iff_bit_agrees_witness :
  (2 < 32)%nat
  /\ (attributes 1 !! 2%nat = attributes 3 !! 2%nat
      <-> Z.testbit 1 (Z.of_nat 2) = Z.testbit 3 (Z.of_nat 2)).
Proof.
  assert (H : (2 < 32)%nat) by lia.
  split; [exact H|]. exact (X2_attribute_agrees_iff_bit_agrees 1 3 2 H).
Defined.

(** X3: an identifier below [2 ^ k] has ZERO at every index from [k] on:
    with [N] records, only the first [log2 N] attributes ever vary. *)
Theorem X3_high_attributes_zero (n k : Z) (i : nat) :
  0 <= n < 2 ^ k -> k <= Z.of_nat i < 32 ->
  attributes n !! i = Some zero.
Proof.
  intros [Hn0 Hnk] [Hki Hi]. rewrite attributes_lookup by lia.
  replace (Z.testbit n (Z.of_nat i)) with false; [reflexivity|].
  symmetry. destruct (Z.eq_dec n 0) as [->|Hnz]; [apply Z.bits_0|].
  apply Z.bits_above_log2; [lia|].
  assert (0 <= k) by (destruct (Z.le_gt_cases 0 k); [assumption|];
                      rewrite Z.pow_neg_r in Hnk by lia; lia).
  assert (Z.log2 n < k) by (apply Z.log2_lt_pow2; lia). lia.
Qed.

Lemma X3_high_attributes_zero_witness :
  0 <= 3 < 2 ^ 2 /\ 2 <= Z.of_nat 2 < 32 /\ attributes 3 !! 2%nat = Some zero.
Proof.
  assert (H1 : 0 <= 3 < 2 ^ 2) by lia.
  assert (H2 : 2 <= Z.of_nat 2 < 32) by lia.
  split; [exact H1|]. split; [exact H2|].
  exact (X3_high_attributes_zero 3 2 2 H1 H2).
Defined.

(** ** The elapsed time *)

Lemma to_int64_small z : - 2 ^ 63 <= z < 2 ^ 63 -> to_int64 z = z.
Proof.
  intros Hz. unfold to_int64, to_signed.
  change (2 ^ (64 - 1)) with (2 ^ 63).
  rewrite Z.mod_small; [lia|].
  change (2 ^ 64) with (2 * 2 ^ 63). lia.
Qed.

(** X4: when the clock has been set back between the two readings, so that
    the end is earlier than the start, the count that is reported is not
    negative but wraps: it is [2 ^ 64] less the time the clock went back. *)
Theorem X4_clock_set_back_wraps (start end_ : timespec) :
  instant end_ < instant start ->
  instant start - instant end_ <= 2 ^ 64 ->
  elapsed_nanosecs start end_ = 2 ^ 64 - (instant start - instant end_).
Proof.
  intros Hlt Hle. rewrite elapsed_nanosecs_mod.
  rewrite <- (Z_mod_plus_full _ 1), Z.mod_small; lia.
Qed.

Lemma X4_clock_set_back_wraps_witness :
  let start := {| tv_sec := 1700000001; tv_nsec := 0 |} in
  let end_ := {| tv_sec := 1700000000; tv_nsec := 999999999 |} in
  instant end_ < instant start
  /\ instant start - instant end_ <= 2 ^ 64
  /\ elapsed_nanosecs start end_ = 18446744073709551615.
Proof.
  cbv zeta.
  assert (H1 : instant {| tv_sec := 1700000000; tv_nsec := 999999999 |}
               < instant {| tv_sec := 1700000001; tv_nsec := 0 |})
    by (unfold instant; simpl; lia).
  assert (H2 : instant {| tv_sec := 1700000001; tv_nsec := 0 |}
               - instant {| tv_sec := 1700000000; tv_nsec := 999999999 |}
               <= 2 ^ 64)
    by (unfold instant; simpl; lia).
  split; [exact H1|]. split; [exact H2|].
  exact (X4_clock_set_back_wraps _ _ H1 H2).
Defined.

(** X5: the two branches of lines 193-202 give the same count: had the
    branch with the borrow (lines 195-196) been taken, the value stored in
    [nanosecs] would have been the one the other branch gives. *)
Theorem X5_branches_report_the_same (start end_ : timespec) :
  nanosecs_of
    {| tv_sec := to_int64 (to_int64 (tv_sec end_ - tv_sec start) - 1);
       tv_nsec := to_int64 (to_int64 (1000000000 + tv_nsec end_)
                            - tv_nsec start) |}
  = nanosecs_of
      {| tv_sec := to_int64 (tv_sec end_ - tv_sec start);
         tv_nsec := to_int64 (tv_nsec end_ - tv_nsec start) |}
  /\ nanosecs_of
       {| tv_sec := to_int64 (tv_sec end_ - tv_sec start);
          tv_nsec := to_int64 (tv_nsec end_ - tv_nsec start) |}
     = elapsed_nanosecs start end_.
Proof.
  split.
  - unfold nanosecs_of. cbn [tv_sec tv_nsec]. rewrite !to_uint64_to_int64.
    rewrite (Zplus_mod (to_int64 _) (to_int64 _)), !to_int64_mod.
    rewrite <- (Zmult_mod_idemp_l (to_int64 _)), to_int64_mod.
    rewrite <- (Zminus_mod_idemp_l (to_int64 _)), to_int64_mod.
    rewrite Zminus_mod_idemp_l, Zmult_mod_idemp_l.
    rewrite <- (Zminus_mod_idemp_l (to_int64 _)), to_int64_mod.
    rewrite Zminus_mod_idemp_l, <- Zplus_mod.
    symmetry.
    rewrite (Zplus_mod (to_int64 _) (to_int64 _)), !to_int64_mod.
    rewrite <- (Zmult_mod_idemp_l (to_int64 _)), to_int64_mod.
    rewrite Zmult_mod_idemp_l, <- Zplus_mod.
    f_equal. lia.
  - unfold elapsed_nanosecs. now rewrite timespec_diff_plain.
Qed.

(** X6: for timestamps whose [tv_nsec] lies in [0, 1000000000), as
    [clock_gettime] returns them, the difference computed is not a
    normalized timespec in general: its [tv_nsec] is
    [end.tv_nsec - start.tv_nsec], which is negative exactly when
    [end.tv_nsec < start.tv_nsec]. *)
Theorem X6_difference_not_normalized (start end_ : timespec) :
  0 <= tv_nsec start < 1000000000 ->
  0 <= tv_nsec end_ < 1000000000 ->
  tv_nsec (timespec_diff start end_) = tv_nsec end_ - tv_nsec start
  /\ - 1000000000 < tv_nsec (timespec_diff start end_) < 1000000000
  /\ (tv_nsec (timespec_diff start end_) < 0 <-> tv_nsec end_ < tv_nsec start).
Proof.
  intros Hs He. rewrite timespec_diff_plain. cbn [tv_nsec].
  rewrite to_int64_small by lia. lia.
Qed.

Lemma X6_difference_not_normalized_witness :
  let start := {| tv_sec := 10; tv_nsec := 500 |} in
  let end_ := {| tv_sec := 11; tv_nsec := 200 |} in
  0 <= tv_nsec start < 1000000000
  /\ 0 <= tv_nsec end_ < 1000000000
  /\ tv_nsec (timespec_diff start end_) = -300.
Proof.
  cbv zeta.
  assert (H1 : 0 <= tv_nsec {| tv_sec := 10; tv_nsec := 500 |} < 1000000000)
    by (simpl; lia).
  assert (H2 : 0 <= tv_nsec {| tv_sec := 11; tv_nsec := 200 |} < 1000000000)
    by (simpl; lia).
  split; [exact H1|]. split; [exact H2|].
  exact (proj1 (X6_difference_not_normalized _ _ H1 H2)).
Defined.

(** ** The load phase *)

Lemma cerr_text_app t1 t2 : cerr_text (t1 ++ t2) = cerr_text t1 ++ cerr_text t2.
Proof. apply omap_app. Qed.

Lemma failed_puts_app t1 t2 :
  failed_puts (t1 ++ t2) = failed_puts t1 ++ failed_puts t2.
Proof. apply omap_app. Qed.

Lemma failed_puts_put_lines rc : failed_puts (put_lines rc) = [].
Proof. now destruct rc. Qed.

Lemma put_chunk_lines space num rc :
  is_uint32 num ->
  failed_puts (put_chunk space num rc)
  = (if decide (rc = SUCCESS) then [] else [num])
  /\ length (cerr_text (put_chunk space num rc))
     = length (failed_puts (put_chunk space num rc)).
Proof.
  intros Hn. unfold put_chunk, failed_puts, cerr_text. cbn [omap list_omap].
  rewrite (unpack_pack num Hn). destruct rc; split; reflexivity.
Qed.

Lemma put_log_lines space rcs : forall num,
  0 <= num -> num + Z.of_nat (length rcs) <= 2 ^ 32 ->
  length (cerr_text (log_from (put_chunk space) num rcs))
  = length (failed_puts (log_from (put_chunk space) num rcs))
  /\ Forall (fun n => num <= n < num + Z.of_nat (length rcs))
            (failed_puts (log_from (put_chunk space) num rcs)).
Proof.
  induction rcs as [|rc rcs IH]; intros num Hnum Hlen; [split; constructor|].
  cbn [log_from length] in *. rewrite cerr_text_app, failed_puts_app.
  destruct (IH (num + 1)) as [IHlen IHall]; [lia..|].
  destruct (put_chunk_lines space num rc) as [Hf Hl]; [unfold is_uint32; lia|].
  split.
  - rewrite !length_app. lia.
  - apply Forall_app. split.
    + rewrite Hf. destruct (decide (rc = SUCCESS)); repeat constructor; lia.
    + eapply Forall_impl; [exact IHall|]. simpl. intros n Hn. lia.
Qed.

(** X7: the load phase writes exactly one line on [std::cerr] for each
    write that returned a status other than SUCCESS, and nothing else; the
    identifiers of those writes lie in [0, N). A write that throws leaves no
    line of the load phase. *)
Theorem X7_one_line_per_failed_write {W} (env : environment W)
    (space : string) (numbers : Z) (s : state W) :
  is_uint32 numbers ->
  exists r w' t,
    load_loop env space numbers (Z.to_nat numbers) 0 s
    = (r, {| world := w'; trace := trace s ++ t |})
    /\ length (cerr_text t) = length (failed_puts t)
    /\ Forall (fun n => 0 <= n < numbers) (failed_puts t).
Proof.
  intros [Hlo Hhi].
  destruct (for_num_run numbers _ _ _ (load_body_runs env space)
              (Z.to_nat numbers) 0 s)
    as (rcs & tail & r & w' & Hrun & Hcase); [lia..|].
  exists r, w', (log_from (put_chunk space) 0 rcs ++ tail).
  split; [exact Hrun|]. rewrite !Z.add_0_l in Hcase.
  assert (Hlen : Z.of_nat (length rcs) <= numbers /\ cerr_text tail = []
                 /\ failed_puts tail = []).
  { destruct Hcase as [(_ & -> & Hlen)|(e & _ & -> & Hlen)];
      repeat split; lia. }
  destruct Hlen as (Hlen & Hc & Hf).
  destruct (put_log_lines space rcs 0) as [Hl Hall]; [lia..|].
  rewrite cerr_text_app, failed_puts_app, Hc, Hf, !app_nil_r.
  split; [exact Hl|].
  eapply Forall_impl; [exact Hall|]. simpl. intros n Hn. lia.
Qed.

Lemma X7_one_line_per_failed_write_witness :
  is_uint32 3
  /\ exists r w' t,
       load_loop script_env "space" 3 (Z.to_nat 3) 0
         (script_state [INVALID; SUCCESS; ERROR] [])
       = (r, {| world := w'; trace := [] ++ t |})
       /\ length (cerr_text t) = length (failed_puts t)
       /\ Forall (fun n => 0 <= n < 3) (failed_puts t).
Proof.
  assert (H3 : is_uint32 3) by in_range.
  split; [exact H3|].
  exact (X7_one_line_per_failed_write script_env "space" 3
           (script_state [INVALID; SUCCESS; ERROR] []) H3).
Defined.

(** ** The search phase *)

(** X8: the checks of lines 170-187 write nothing on [std::cerr] exactly
    when the search returned one result and that result is the key of the
    identifier: no anomaly goes unreported, and a right answer raises no
    alarm. *)
Theorem X8_verify_silent_iff_exact {W} (num : Z) (res : search_results)
    (st : state W) :
  cerr_text (trace (verify num (pack_uint32 num) res st).2)
  = cerr_text (trace st)
  <-> res = [pack_uint32 num].
Proof.
  rewrite verify_run. cbn [snd trace]. rewrite cerr_text_app.
  assert (Hnil : forall l : list string,
             cerr_text (trace st) ++ l = cerr_text (trace st) <-> l = []).
  { intros l. split; [|intros ->; apply app_nil_r].
    intros H. apply (app_inv_head (cerr_text (trace st))).
    now rewrite app_nil_r. }
  rewrite Hnil. unfold verify_lines.
  destruct res as [|first [|second more]].
  - split; discriminate.
  - destruct (decide (first = pack_uint32 num)) as [->|Hne];
      split; try reflexivity; try discriminate.
    intros [= ->]. contradiction.
  - destruct (decide (first = pack_uint32 num)); split; discriminate.
Qed.


Lemma perfect_env_answers_exactly space numbers :
  is_uint32 numbers -> answers_exactly perfect_env space numbers.
Proof.
  intros [Hlo Hhi] n w Hn. exists w. unfold perfect_env. cbn [env_search].
  rewrite search_terms_attributes.
  replace (omap id (Some <$> attributes n)) with (attributes n).
  - rewrite decode_attributes by (unfold is_uint32; lia). reflexivity.
  - induction (attributes n) as [|v l IHl]; [reflexivity|].
    cbn. now rewrite <- IHl.
Qed.


(** Against a store that answers exactly, the loop entered at [num] leaves
    one search, answered with the key, and one cursor advance for each
    identifier from [num] up to [numbers]. *)
Lemma search_loop_exact {W} (env : environment W) (space : string)
    (numbers : Z) :
  answers_exactly env space numbers ->
  forall fuel num (s : state W),
    0 <= num -> numbers < 2 ^ 32 -> numbers - num <= Z.of_nat fuel ->
    exists w',
      for_num numbers (search_body env space) fuel num s
      = (Returned tt,
         {| world := w';
            trace := trace s
              ++ log_from (search_chunk space) num
                   ((fun n => [pack_uint32 n]) <$> seqZ num (numbers - num))
         |}).
Proof.
  intros Hstore. induction fuel as [|fuel IH]; intros num s Hnum Hmax Hfuel;
    simpl; destruct (Z.ltb_spec num numbers) as [Hlt|Hge]; try lia;
    try (exists (world s); rewrite seqZ_nil by lia; cbn [fmap list_fmap log_from];
         rewrite app_nil_r; now destruct s).
  unfold mbind, M_bind, search_body at 1, mbind, M_bind, call.
  fold (search_terms num).
  destruct (Hstore num (world s)) as (w1 & ->); [lia|].
  rewrite verify_run. cbn [world trace].
  replace (to_uint32 (num + 1)) with (num + 1)
    by (symmetry; apply Z.mod_small; lia).
  destruct (IH (num + 1)
              {| world := w1;
                 trace := (trace s ++ [EvSearch space (search_terms num)
                                         (inr [pack_uint32 num])])
                          ++ verify_lines num [pack_uint32 num] |})
    as (w' & ->); [lia..|].
  exists w'. f_equal. f_equal. cbn [trace].
  rewrite (seqZ_cons num) by lia. cbn [fmap list_fmap log_from].
  change (list_fmap Z _ ?f ?l) with (f <$> l).
  replace (Z.pred (numbers - num)) with (numbers - (num + 1)) by lia.
  replace (Z.succ num) with (num + 1) by lia.
  unfold search_chunk at 2. rewrite <- !app_assoc. reflexivity.
Qed.

Lemma cerr_text_exact_log space (k : nat) : forall num,
  cerr_text (log_from (search_chunk space) num
               ((fun n => [pack_uint32 n]) <$> seqZ num (Z.of_nat k))) = [].
Proof.
  induction k as [|k IH]; intros num; [reflexivity|].
  rewrite seqZ_cons by lia. cbn [fmap list_fmap log_from].
  change (list_fmap Z _ ?f ?l) with (f <$> l).
  replace (Z.pred (Z.of_nat (S k))) with (Z.of_nat k) by lia.
  rewrite cerr_text_app, IH, app_nil_r.
  unfold search_chunk, verify_lines.
  rewrite decide_True by reflexivity. reflexivity.
Qed.

(** X9: against a store that answers every search with exactly the key
    searched for, the search phase makes the [N] searches for 0, ..., N-1
    in order, each answered with its key and followed by one advance of the
    cursor, returns, and writes nothing on [std::cerr]. *)
Theorem X9_search_phase_silent {W} (env : environment W) (space : string)
    (numbers : Z) (s : state W) :
  is_uint32 numbers ->
  answers_exactly env space numbers ->
  exists s' t,
    search_loop env space numbers (Z.to_nat numbers) 0 s = (Returned tt, s')
    /\ trace s' = trace s ++ t
    /\ t = log_from (search_chunk space) 0
             ((fun n => [pack_uint32 n]) <$> seqZ 0 numbers)
    /\ searched t = search_terms <$> seqZ 0 numbers
    /\ cerr_text t = []
    /\ cerr_text (trace s') = cerr_text (trace s).
Proof.
  intros [Hlo Hhi] Hstore.
  destruct (search_loop_exact env space numbers Hstore (Z.to_nat numbers) 0 s)
    as (w' & Hrun); [lia..|].
  rewrite Z.sub_0_r in Hrun. unfold search_loop. rewrite Hrun.
  eexists _, _. split; [reflexivity|]. cbn [trace].
  split; [reflexivity|]. split; [reflexivity|].
  assert (Hc : cerr_text
                 (log_from (search_chunk space) 0
                    ((fun n => [pack_uint32 n]) <$> seqZ 0 numbers)) = []).
  { pose proof (cerr_text_exact_log space (Z.to_nat numbers) 0) as H.
    now rewrite Z2Nat.id in H by lia. }
  split; [|split; [exact Hc|]].
  - rewrite searched_log, length_fmap, length_seqZ.
    now rewrite Z2Nat.id by lia.
  - now rewrite cerr_text_app, Hc, app_nil_r.
Qed.

Lemma X9_search_phase_silent_witness :
  is_uint32 3
  /\ answers_exactly perfect_env "space" 3
  /\ exists s' t,
       search_loop perfect_env "space" 3 (Z.to_nat 3) 0
         {| world := tt; trace := [] |} = (Returned tt, s')
       /\ trace s' = [] ++ t
       /\ t = log_from (search_chunk "space") 0
                ((fun n => [pack_uint32 n]) <$> seqZ 0 3)
       /\ searched t = search_terms <$> seqZ 0 3
       /\ cerr_text t = []
       /\ cerr_text (trace s') = [].
Proof.
  assert (H3 : is_uint32 3) by in_range.
  pose proof (perfect_env_answers_exactly "space" 3 H3) as Hp.
  split; [exact H3|]. split; [exact Hp|].
  exact (X9_search_phase_silent perfect_env "space" 3
           {| world := tt; trace := [] |} H3 Hp).
Defined.

(** ** Whole runs *)




(** The [try] block either throws, or returns after the whole sequence:
    all [N] writes, the pause, all [N] searches between the two readings of
    the clock, and the report. *)
Lemma main_try_outcome {W} (env : environment W) (space : string)
    (numbers : Z) (s : state W) :
  is_uint32 numbers ->
  exists r s',
    main_try env space numbers s = (r, s')
    /\ ((exists e, r = Thrown e)
        \/ (exists rcs results start end_,
              r = Returned tt
              /\ trace s'
                 = trace s
                   ++ EvConnect (inr tt) :: log_from (put_chunk space) 0 rcs
                   ++ EvSleep 1 0
                      :: EvCerr ("Starting searches." ++ endl)%string
                      :: EvClock start
                      :: log_from (search_chunk space) 0 results
                   ++ [EvClock end_;
                       EvCerr ("test took "
                               ++ dec (nanosecs_of (timespec_diff start end_))
                               ++ " nanoseconds for " ++ dec numbers
                               ++ " searches" ++ endl)%string]
              /\ Z.of_nat (length rcs) = numbers
              /\ Z.of_nat (length results) = numbers)).
Proof.
  intros [Hlo Hhi]. unfold main_try.
  unfold mbind at 1, M_bind at 1, call at 1.
  destruct (env_connect env (world s)) as [[e|[]] w0];
    [eexists _, _; split; [reflexivity|left; eauto]|].
  set (s0 := {| world := w0; trace := trace s ++ [EvConnect (inr ())] |}).
  unfold mbind at 1, M_bind at 1.
  destruct (for_num_run numbers _ _ _ (load_body_runs env space)
              (Z.to_nat numbers) 0 s0)
    as (rcs & tail & r1 & w1 & Hload & Hcase1); [lia..|].
  unfold load_loop. rewrite Hload. rewrite !Z.add_0_l in Hcase1.
  destruct Hcase1 as [(-> & -> & Hlen1)|(e & -> & -> & Hlen1)];
    [|eexists _, _; split; [reflexivity|left; eauto]].
  unfold mbind at 1, M_bind at 1, emit at 1.
  unfold mbind at 1, M_bind at 1, cerr at 1, emit at 1.
  unfold mbind at 1, M_bind at 1, clock_gettime at 1. cbn [world trace].
  destruct (env_clock env w1) as [start w2].
  unfold mbind at 1, M_bind at 1.
  match goal with
  | |- context [search_loop _ _ _ _ _ ?st] => set (s2 := st)
  end.
  destruct (for_num_run numbers _ _ _ (search_body_runs env space)
              (Z.to_nat numbers) 0 s2)
    as (results & tail & r2 & w3 & Hsearch & Hcase2); [lia..|].
  unfold search_loop. rewrite Hsearch. rewrite !Z.add_0_l in Hcase2.
  destruct Hcase2 as [(-> & -> & Hlen2)|(e & -> & -> & Hlen2)];
    [|eexists _, _; split; [reflexivity|left; eauto]].
  unfold mbind at 1, M_bind at 1, clock_gettime at 1. cbn [world trace].
  destruct (env_clock env w3) as [end_ w4].
  unfold report, cerr, emit. cbn [world trace].
  eexists _, _. split; [reflexivity|].
  right. exists rcs, results, start, end_. split; [reflexivity|].
  split; [|lia]. subst s2 s0. cbn [trace].
  rewrite !app_nil_r, <- !app_assoc. cbn [app]. reflexivity.
Qed.

Lemma written_app t1 t2 : written (t1 ++ t2) = written t1 ++ written t2.
Proof. apply omap_app. Qed.

Lemma searched_app t1 t2 : searched (t1 ++ t2) = searched t1 ++ searched t2.
Proof. apply omap_app. Qed.

Lemma written_search_log space results : forall num,
  written (log_from (search_chunk space) num results) = [].
Proof.
  induction results as [|res results IH]; intros num; [reflexivity|].
  cbn [log_from]. rewrite written_app, IH, app_nil_r.
  unfold search_chunk, verify_lines.
  destruct res as [|first [|second more]]; [reflexivity|..];
    destruct (decide (first = pack_uint32 num)); reflexivity.
Qed.

Lemma searched_put_log space rcs : forall num,
  searched (log_from (put_chunk space) num rcs) = [].
Proof.
  induction rcs as [|rc rcs IH]; intros num; [reflexivity|].
  cbn [log_from]. rewrite searched_app, IH, app_nil_r.
  now destruct rc.
Qed.

(** X11: in a run whose [try] block returns, the records written are those
    of 0, ..., N-1 in order, the term sets searched are those of 0, ...,
    N-1 in order, and the [n]-th term set searched pins every attribute to
    the value that the [n]-th record written holds for it. *)
Theorem X11_searches_mirror_writes {W} (env : environment W)
    (space : string) (numbers : Z) (s : state W) :
  is_uint32 numbers ->
  (main_try env space numbers s).1 = Returned tt ->
  exists t : list event,
    trace (main_try env space numbers s).2 = trace s ++ t
    /\ written t = encode <$> seqZ 0 numbers
    /\ searched t = search_terms <$> seqZ 0 numbers
    /\ searched t = (fun record : buffer * list buffer => Some <$> record.2)
                    <$> written t.
Proof.
  intros Hn Hret.
  destruct (main_try_outcome env space numbers s Hn)
    as (r & s' & Hrun
        & [(e & ->)|(rcs & results & start & end_ & -> & Ht & H1 & H2)]);
    rewrite Hrun in Hret |- *; [discriminate Hret|].
  cbn [snd]. rewrite Ht.
  eexists. split; [reflexivity|].
  assert (Hw : written
                 (EvConnect (inr ()) :: log_from (put_chunk space) 0 rcs
                  ++ EvSleep 1 0 :: EvCerr ("Starting searches." ++ endl)%string
                  :: EvClock start :: log_from (search_chunk space) 0 results
                  ++ [EvClock end_;
                      EvCerr ("test took "
                              ++ dec (nanosecs_of (timespec_diff start end_))
                              ++ " nanoseconds for " ++ dec numbers
                              ++ " searches" ++ endl)%string])
               = encode <$> seqZ 0 numbers).
  { change (written (EvConnect ?a :: ?l)) with (written l).
    rewrite written_app, written_log, H1.
    change (written (EvSleep ?a ?b :: EvCerr ?c :: EvClock ?d :: ?l))
      with (written l).
    rewrite written_app, written_search_log. apply app_nil_r. }
  assert (Hs : searched
                 (EvConnect (inr ()) :: log_from (put_chunk space) 0 rcs
                  ++ EvSleep 1 0 :: EvCerr ("Starting searches." ++ endl)%string
                  :: EvClock start :: log_from (search_chunk space) 0 results
                  ++ [EvClock end_;
                      EvCerr ("test took "
                              ++ dec (nanosecs_of (timespec_diff start end_))
                              ++ " nanoseconds for " ++ dec numbers
                              ++ " searches" ++ endl)%string])
               = search_terms <$> seqZ 0 numbers).
  { change (searched (EvConnect ?a :: ?l)) with (searched l).
    rewrite searched_app, searched_put_log. cbn [app].
    change (searched (EvSleep ?a ?b :: EvCerr ?c :: EvClock ?d :: ?l))
      with (searched l).
    rewrite searched_app, searched_log, H2. apply app_nil_r. }
  split; [exact Hw|]. split; [exact Hs|].
  rewrite Hs, Hw, <- list_fmap_compose.
  apply list_fmap_ext. intros i n _. cbn. apply search_terms_attributes.
Qed.

Lemma X11_searches_mirror_writes_witness :
  let s := script_state [INVALID; SUCCESS]
             [[pack_uint32 0]; [pack_uint32 7; pack_uint32 1]] in
  is_uint32 2
  /\ (main_try script_env "space" 2 s).1 = Returned tt
  /\ exists t : list event,
       trace (main_try script_env "space" 2 s).2 = trace s ++ t
       /\ written t = encode <$> seqZ 0 2
       /\ searched t = search_terms <$> seqZ 0 2
       /\ searched t = (fun record : buffer * list buffer => Some <$> record.2)
                    <$> written t.
Proof.
  cbv zeta.
  assert (H2 : is_uint32 2) by in_range.
  assert (Hr : (main_try script_env "space" 2
                  (script_state [INVALID; SUCCESS]
                     [[pack_uint32 0]; [pack_uint32 7; pack_uint32 1]])).1
               = Returned tt) by (vm_compute; reflexivity).
  split; [exact H2|]. split; [exact Hr|].
  exact (X11_searches_mirror_writes script_env "space" 2 _ H2 Hr).
Defined.

(** X12: with a count of 0 and a store that can be reached, no record is
    written and no search is made: [main] connects, pauses, reads the clock
    twice and reports the time for 0 searches, and returns [EXIT_SUCCESS]. *)
Theorem X12_zero_records {W} (env : environment W) (space : string)
    (s : state W) (w0 : W) :
  env_connect env (world s) = (inr tt, w0) ->
  exists w' start end_,
    main env space 0 s
    = (Returned EXIT_SUCCESS,
       {| world := w';
          trace := trace s
            ++ [ EvConnect (inr tt); EvSleep 1 0;
                 EvCerr ("Starting searches." ++ endl)%string;
                 EvClock start; EvClock end_;
                 EvCerr ("test took "
                         ++ dec (nanosecs_of (timespec_diff start end_))
                         ++ " nanoseconds for 0 searches" ++ endl)%string ] |}).
Proof.
  intros Hconn.
  unfold main, try_catch, main_try, mbind, M_bind, call, clock_gettime,
    report, cerr, emit, load_loop, search_loop.
  rewrite Hconn. change (Z.to_nat 0) with 0%nat.
  cbn [for_num]. change (0 <? 0) with false.
  cbn [mret M_ret world trace]. cbv iota.
  destruct (env_clock env w0) as [start w1]. cbn [world trace].
  destruct (env_clock env w1) as [end_ w2]. cbn [world trace].
  exists w2, start, end_. rewrite <- !app_assoc. reflexivity.
Qed.

Lemma X12_zero_records_witness :
  env_connect script_env (world (script_state [] []))
  = (inr tt, world (script_state [] []))
  /\ exists w' start end_,
       main script_env "space" 0 (script_state [] [])
       = (Returned EXIT_SUCCESS,
          {| world := w';
             trace := []
               ++ [ EvConnect (inr tt); EvSleep 1 0;
                    EvCerr ("Starting searches." ++ endl)%string;
                    EvClock start; EvClock end_;
                    EvCerr ("test took "
                            ++ dec (nanosecs_of (timespec_diff start end_))
                            ++ " nanoseconds for 0 searches" ++ endl)%string ]
          |}).
Proof.
  assert (H : env_connect script_env (world (script_state [] []))
              = (inr tt, world (script_state [] []))) by reflexivity.
  split; [exact H|].
  exact (X12_zero_records script_env "space" (script_state [] []) _ H).
Defined.

(** X13: [main] returns an exit status for every count: it never lets an
    exception out. The status is [EXIT_SUCCESS] exactly when the [try] block
    ran to its end; when the block threw, the status is [EXIT_FAILURE] and
    the last thing written is the line of the handler for that exception,
    with its message and without an end of line. *)
Theorem X13_exit_status {W} (env : environment W) (space : string)
    (numbers : Z) (s : state W) :
  is_uint32 numbers ->
  exists code s',
    main env space numbers s = (Returned code, s')
    /\ ((code = EXIT_SUCCESS
         /\ main_try env space numbers s = (Returned tt, s'))
        \/ (code = EXIT_FAILURE
            /\ exists e s1,
                 main_try env space numbers s = (Thrown e, s1)
                 /\ world s' = world s1
                 /\ trace s'
                    = trace s1
                      ++ [EvCerr
                            match e with
                            | po6_error what =>
                                "There was a system error:  " ++ what
                            | runtime_error what =>
                                "There was a runtime error:  " ++ what
                            | bad_alloc what =>
                                "There was a memory allocation error:  "
                                ++ what
                            | std_exception what =>
                                "There was a generic error:  " ++ what
                            end%string])).
Proof.
  intros Hn.
  destruct (main_try_outcome env space numbers s Hn)
    as (r & s1 & Hrun & [(e & ->)|(rcs & results & start & end_ & -> & _)]);
    unfold main, try_catch, mbind at 1, M_bind at 1; rewrite Hrun.
  - exists EXIT_FAILURE. destruct e; eexists; (split; [reflexivity|]);
      right; (split; [reflexivity|]); eexists _, s1; repeat split.
  - exists EXIT_SUCCESS, s1. split; [reflexivity|]. left. auto.
Qed.

Lemma X13_exit_status_witness :
  is_uint32 2
  /\ exists code s',
       main refusing_env "space" 2 (script_state [] []) = (Returned code, s')
       /\ ((code = EXIT_SUCCESS
            /\ main_try refusing_env "space" 2 (script_state [] [])
               = (Returned tt, s'))
           \/ (code = EXIT_FAILURE
               /\ exists e s1,
                    main_try refusing_env "space" 2 (script_state [] [])
                    = (Thrown e, s1)
                    /\ world s' = world s1
                    /\ trace s'
                       = trace s1
                         ++ [EvCerr
                               match e with
                               | po6_error what =>
                                   "There was a system error:  " ++ what
                               | runtime_error what =>
                                   "There was a runtime error:  " ++ what
                               | bad_alloc what =>
                                   "There was a memory allocation error:  "
                                   ++ what
                               | std_exception what =>
                                   "There was a generic error:  " ++ what
                               end%string])).
Proof.
  assert (H2 : is_uint32 2) by in_range.
  split; [exact H2|].
  exact (X13_exit_status refusing_env "space" 2 (script_state [] []) H2).
Defined.

(** ** The command line *)

(** X14: when the command line is not usable, [main] writes one message
    on [std::cerr] and returns [EXIT_FAILURE] without any call to the store,
    the pause or the clock. The message is the usage text, of two lines,
    when [argc] is not 5; otherwise it is the one line about the first
    argument refused: the address before the port, the port before the
    count. *)
Theorem X14_bad_arguments_stop_early {W} (ipaddr : Type)
    (parse_ipaddr : string -> option ipaddr)
    (to_uint16_t to_uint32_t : string -> conversion)
    (store_at : ipaddr -> Z -> environment W)
    (argv : list string) (s : state W) :
  let run :=
    main_argv ipaddr parse_ipaddr to_uint16_t to_uint32_t store_at argv s in
  let stops_with (text : string) :=
    run = (Returned EXIT_FAILURE,
           {| world := world s; trace := trace s ++ [EvCerr text] |}) in
  (length argv <> 5%nat ->
   stops_with
     ("Usage:  binary <coordinator ip> <coordinator port> <space name> <numbers>"
      ++ endl
      ++ "This will create <numbers> points whose key is a number [0, <numbers>) and "
      ++ "then perform searches over the bits of the number.  The space should have 32 "
      ++ "secondary dimensions so that all bits of a number may be stored."
      ++ endl)%string)
  /\ (length argv = 5%nat ->
      parse_ipaddr (arg argv 1) = None ->
      stops_with
        ("The IP address must be an IPv4 or IPv6 address." ++ endl)%string)
  /\ (length argv = 5%nat ->
      parse_ipaddr (arg argv 1) <> None ->
      to_uint16_t (arg argv 2) = DomainError ->
      stops_with ("The port number must be an integer." ++ endl)%string)
  /\ (length argv = 5%nat ->
      parse_ipaddr (arg argv 1) <> None ->
      to_uint16_t (arg argv 2) = OutOfRange ->
      stops_with ("The port number must be suitably small." ++ endl)%string)
  /\ (length argv = 5%nat ->
      parse_ipaddr (arg argv 1) <> None ->
      (exists port, to_uint16_t (arg argv 2) = Converted port) ->
      to_uint32_t (arg argv 4) = DomainError ->
      stops_with ("The number must be an integer." ++ endl)%string)
  /\ (length argv = 5%nat ->
      parse_ipaddr (arg argv 1) <> None ->
      (exists port, to_uint16_t (arg argv 2) = Converted port) ->
      to_uint32_t (arg argv 4) = OutOfRange ->
      stops_with ("The number must be suitably small." ++ endl)%string).
Proof.
  cbv zeta. unfold main_argv.
  destruct (Z.eqb_spec (Z.of_nat (length argv)) 5) as [Hargc|Hargc];
    cbn [negb].
  - split; [intros H; lia|].
    destruct (parse_ipaddr (arg argv 1)) as [ip|].
    + split; [intros _ H; discriminate H|].
      destruct (to_uint16_t (arg argv 2)) as [port| |].
      * split; [intros _ _ H; discriminate H|].
        split; [intros _ _ H; discriminate H|].
        destruct (to_uint32_t (arg argv 4)) as [numbers| |];
          split; intros _ _ _ H; try discriminate H; reflexivity.
      * split; [intros _ _ _; reflexivity|].
        split; [intros _ _ H; discriminate H|].
        split; intros _ _ [port H]; discriminate H.
      * split; [intros _ _ H; discriminate H|].
        split; [intros _ _ _; reflexivity|].
        split; intros _ _ [port H]; discriminate H.
    + split; [intros _ _; reflexivity|].
      repeat split; intros _ H; now contradiction H.
  - split; [intros _; reflexivity|].
    repeat split; intros H; lia.
Qed.

Lemma X14_bad_arguments_stop_early_witness :
  let stops_with (argv : list string) (text : string) :=
    demo_main argv (script_state [] [])
    = (Returned EXIT_FAILURE,
       {| world := world (script_state [] []);
          trace := trace (script_state [] []) ++ [EvCerr text] |}) in
  stops_with ["binary"; "127.0.0.1"; "1982"; "space"]%string usage_text
  /\ stops_with ["binary"; "nowhere"; "x1982"; "space"; "ten"]%string
       ("The IP address must be an IPv4 or IPv6 address." ++ endl)%string
  /\ stops_with ["binary"; "127.0.0.1"; "x1982"; "space"; "ten"]%string
       ("The port number must be an integer." ++ endl)%string
  /\ stops_with ["binary"; "127.0.0.1"; "65536"; "space"; "ten"]%string
       ("The port number must be suitably small." ++ endl)%string
  /\ stops_with ["binary"; "127.0.0.1"; "1982"; "space"; "ten"]%string
       ("The number must be an integer." ++ endl)%string
  /\ stops_with ["binary"; "127.0.0.1"; "1982"; "space"; "4294967296"]%string
       ("The number must be suitably small." ++ endl)%string.
Proof.
  cbv zeta.
  assert (Hport : exists port, demo_convert 65535 "1982" = Converted port)
    by (exists 1982; reflexivity).
  assert (Hip : demo_ipaddr "127.0.0.1" <> None) by discriminate.
  split; [|split; [|split; [|split; [|split]]]].
  - refine (proj1 (X14_bad_arguments_stop_early string demo_ipaddr
                     (demo_convert 65535) (demo_convert 4294967295)
                     (fun _ _ => script_env)
                     ["binary"; "127.0.0.1"; "1982"; "space"]%string
                     (script_state [] [])) _).
    simpl. lia.
  - exact (proj1 (proj2 (X14_bad_arguments_stop_early string demo_ipaddr
                     (demo_convert 65535) (demo_convert 4294967295)
                     (fun _ _ => script_env)
                     ["binary"; "nowhere"; "x1982"; "space"; "ten"]%string
                     (script_state [] []))) eq_refl eq_refl).
  - exact (proj1 (proj2 (proj2
             (X14_bad_arguments_stop_early string demo_ipaddr
                (demo_convert 65535) (demo_convert 4294967295)
                (fun _ _ => script_env)
                ["binary"; "127.0.0.1"; "x1982"; "space"; "ten"]%string
                (script_state [] [])))) eq_refl Hip eq_refl).
  - exact (proj1 (proj2 (proj2 (proj2
             (X14_bad_arguments_stop_early string demo_ipaddr
                (demo_convert 65535) (demo_convert 4294967295)
                (fun _ _ => script_env)
                ["binary"; "127.0.0.1"; "65536"; "space"; "ten"]%string
                (script_state [] []))))) eq_refl Hip eq_refl).
  - exact (proj1 (proj2 (proj2 (proj2 (proj2
             (X14_bad_arguments_stop_early string demo_ipaddr
                (demo_convert 65535) (demo_convert 4294967295)
                (fun _ _ => script_env)
                ["binary"; "127.0.0.1"; "1982"; "space"; "ten"]%string
                (script_state [] [])))))) eq_refl Hip Hport eq_refl).
  - exact (proj2 (proj2 (proj2 (proj2 (proj2
             (X14_bad_arguments_stop_early string demo_ipaddr
                (demo_convert 65535) (demo_convert 4294967295)
                (fun _ _ => script_env)
                ["binary"; "127.0.0.1"; "1982"; "space"; "4294967296"]%string
                (script_state [] [])))))) eq_refl Hip Hport eq_refl).
Defined.
